(** * Koyeb account status checker (koyeb-alive/workers.js)

    A shallow embedding of the script: JavaScript strings are sequences of
    UTF-16 code units, JSON bodies are values of [jsval], and the effects of
    the script (console, clock, timers, [fetch], [process.exit], exceptions)
    are threaded through a small state-and-completion monad [M]. *)

From Stdlib Require Import List ZArith NArith Lia Bool String Ascii Decimal.
Import ListNotations.

Set Implicit Arguments.
Set Warnings "-register-all".

(* ------------------------------------------------------------------ *)
(** ** JavaScript strings *)

Module JsString.

(** A JavaScript string is a finite sequence of 16-bit code units. *)
Abbreviation code_unit := N (only parsing).
Definition jsstring := list code_unit.

Definition eqb (a b : jsstring) : bool :=
  if list_eq_dec N.eq_dec a b then true else false.

(** Source literals are written in this file as UTF-8 text; [js] decodes
    the bytes to code points and re-encodes them as UTF-16. *)
Fixpoint utf8_points (bs : list N) : list N :=
  match bs with
  | [] => []
  | b0 :: t0 =>
    if (b0 <? 0x80)%N then b0 :: utf8_points t0
    else match t0 with
    | [] => [b0]
    | b1 :: t1 =>
      if (b0 <? 0xE0)%N then
        ((b0 - 0xC0) * 64 + (b1 - 0x80))%N :: utf8_points t1
      else match t1 with
      | [] => [b0; b1]
      | b2 :: t2 =>
        if (b0 <? 0xF0)%N then
          ((b0 - 0xE0) * 4096 + (b1 - 0x80) * 64 + (b2 - 0x80))%N
            :: utf8_points t2
        else match t2 with
        | [] => [b0; b1; b2]
        | b3 :: t3 =>
          ((b0 - 0xF0) * 262144 + (b1 - 0x80) * 4096
             + (b2 - 0x80) * 64 + (b3 - 0x80))%N :: utf8_points t3
        end
      end
    end
  end.

Definition utf16_units (cp : N) : list code_unit :=
  if (cp <? 0x10000)%N then [cp]
  else let c := (cp - 0x10000)%N in
       [(0xD800 + c / 1024)%N; (0xDC00 + c mod 1024)%N].

Definition js (s : string) : jsstring :=
  flat_map utf16_units (utf8_points (map N_of_ascii (list_ascii_of_string s))).

(** ECMAScript WhiteSpace and LineTerminator code points, the set removed
    by [String.prototype.trim]. *)
Definition is_whitespace (c : code_unit) : bool :=
  ((0x0009 <=? c) && (c <=? 0x000D) || (c =? 0x0020) || (c =? 0x00A0)
   || (c =? 0x1680) || (0x2000 <=? c) && (c <=? 0x200A)
   || (c =? 0x2028) || (c =? 0x2029) || (c =? 0x202F) || (c =? 0x205F)
   || (c =? 0x3000) || (c =? 0xFEFF))%N.

Fixpoint trimStart (s : jsstring) : jsstring :=
  match s with
  | [] => []
  | c :: t => if is_whitespace c then trimStart t else s
  end.

Fixpoint trimEnd (s : jsstring) : jsstring :=
  match s with
  | [] => []
  | c :: t =>
    match trimEnd t with
    | [] => if is_whitespace c then [] else [c]
    | t' => c :: t'
    end
  end.

Definition trim (s : jsstring) : jsstring := trimEnd (trimStart s).

(** [s.split(sep)] for a one-unit separator: never the empty array. *)
Fixpoint split (sep : code_unit) (s : jsstring) : list jsstring :=
  match s with
  | [] => [[]]
  | c :: t =>
    if (c =? sep)%N then [] :: split sep t
    else match split sep t with
         | [] => [[c]]
         | h :: r => (c :: h) :: r
         end
  end.

Fixpoint startsWith (p s : jsstring) : bool :=
  match p, s with
  | [], _ => true
  | _ :: _, [] => false
  | a :: p', b :: s' => (a =? b)%N && startsWith p' s'
  end.

(** [s.indexOf(p)], counting from [i]; -1 when [p] does not occur. *)
Fixpoint indexOf_from (p s : jsstring) (i : Z) : Z :=
  if startsWith p s then i
  else match s with
       | [] => (-1)%Z
       | _ :: t => indexOf_from p t (i + 1)%Z
       end.

Definition indexOf (p s : jsstring) : Z := indexOf_from p s 0%Z.

Fixpoint includes (p s : jsstring) : bool :=
  startsWith p s
  || match s with [] => false | _ :: t => includes p t end.

(** [s.substring(start, end)]: both indices are clamped to [0, length]
    and swapped when out of order; an absent [end] is the length. *)
Definition clamp (len i : Z) : Z := Z.max 0 (Z.min i len).

Definition substring (s : jsstring) (start : Z) (end_ : option Z) : jsstring :=
  let len := Z.of_nat (List.length s) in
  let a := clamp len start in
  let b := match end_ with None => len | Some e => clamp len e end in
  let from := Z.to_nat (Z.min a b) in
  let to := Z.to_nat (Z.max a b) in
  firstn (to - from) (skipn from s).

Definition toLowerAscii (s : jsstring) : jsstring :=
  map (fun c => if (0x41 <=? c) && (c <=? 0x5A) then c + 32 else c)%N s.

(** Decimal rendering of a non-negative integer. *)
Fixpoint uint_units (d : Decimal.uint) : jsstring :=
  match d with
  | Nil => []
  | D0 d => 48%N :: uint_units d
  | D1 d => 49%N :: uint_units d
  | D2 d => 50%N :: uint_units d
  | D3 d => 51%N :: uint_units d
  | D4 d => 52%N :: uint_units d
  | D5 d => 53%N :: uint_units d
  | D6 d => 54%N :: uint_units d
  | D7 d => 55%N :: uint_units d
  | D8 d => 56%N :: uint_units d
  | D9 d => 57%N :: uint_units d
  end.

(** [String(n)] for an integer-valued number. *)
Definition Number_toString (n : Z) : jsstring :=
  match n with
  | Zneg p => 45%N :: uint_units (Pos.to_uint p)
  | _ => uint_units (N.to_uint (Z.to_N n))
  end.

End JsString.
Import JsString.

Definition nl : jsstring := [10%N].
Definition is_empty (s : jsstring) : bool :=
  match s with [] => true | _ => false end.

(** [a || b] on strings: the empty string is the only falsy one. *)
Definition or_str (a b : jsstring) : jsstring := if is_empty a then b else a.

(** [s.replace(/x/g, y)] for single code units [x] and [y]. *)
Definition replace_all (x y : code_unit) (s : jsstring) : jsstring :=
  map (fun c => if (c =? x)%N then y else c) s.

Fixpoint join_strings (sep : jsstring) (l : list jsstring) : jsstring :=
  match l with
  | [] => []
  | x :: t =>
    match t with
    | [] => x
    | _ :: _ => x ++ sep ++ join_strings sep t
    end
  end.

(* ------------------------------------------------------------------ *)
(** ** JavaScript values obtained from JSON *)

Module JsValue.

(** A number is carried by its [ToString] rendering, which determines both
    its truthiness and its text in a template literal.  An object is the
    list of its own properties, each key at most once. *)
Inductive jsval :=
| JUndefined
| JNull
| JBool (b : bool)
| JNum (repr : jsstring)
| JStr (s : jsstring)
| JArr (xs : list jsval)
| JObj (props : list (jsstring * jsval)).

Definition truthy (v : jsval) : bool :=
  match v with
  | JUndefined | JNull => false
  | JBool b => b
  | JNum r => negb (eqb r (js "0") || eqb r (js "NaN"))
  | JStr s => negb (is_empty s)
  | JArr _ | JObj _ => true
  end.

(** [a || b] *)
Definition or_else (a b : jsval) : jsval := if truthy a then a else b.

(** [Object.prototype.hasOwnProperty] on the properties of an object. *)
Definition has_own_property (k : jsstring) (props : list (jsstring * jsval))
  : bool :=
  existsb (fun p => eqb k (fst p)) props.

(** [ToString]; [None] when the conversion throws a [TypeError].  An object
    parsed from JSON converts through [Object.prototype.toString], unless
    it has an own member named [toString]: a JSON value is never callable,
    so that member hides the inherited method and no primitive value can
    be obtained.  An array converts as [join(",")] of its elements, where
    undefined and null render as the empty string. *)
Fixpoint ToString (v : jsval) : option jsstring :=
  match v with
  | JUndefined => Some (js "undefined")
  | JNull => Some (js "null")
  | JBool true => Some (js "true")
  | JBool false => Some (js "false")
  | JNum r => Some r
  | JStr s => Some s
  | JArr xs =>
    option_map (join_strings (js ","))
      ((fix elements (l : list jsval) : option (list jsstring) :=
          match l with
          | [] => Some []
          | x :: t =>
            match match x with
                  | JUndefined | JNull => Some []
                  | _ => ToString x
                  end with
            | Some s => option_map (cons s) (elements t)
            | None => None
            end
          end) xs)
  | JObj props =>
    if has_own_property (js "toString") props then None
    else Some (js "[object Object]")
  end.

(** [xs.join(sep)]: undefined and null elements render as the empty
    string, every other element by [ToString]; the call throws when the
    conversion of an element does. *)
Definition join_element (x : jsval) : option jsstring :=
  match x with
  | JUndefined | JNull => Some []
  | _ => ToString x
  end.

Fixpoint join_elements (xs : list jsval) : option (list jsstring) :=
  match xs with
  | [] => Some []
  | x :: t =>
    match join_element x with
    | Some s => option_map (cons s) (join_elements t)
    | None => None
    end
  end.

Definition Array_join (sep : jsstring) (xs : list jsval) : option jsstring :=
  option_map (join_strings sep) (join_elements xs).

Fixpoint own_property (k : jsstring) (props : list (jsstring * jsval)) : jsval :=
  match props with
  | [] => JUndefined
  | (k', v) :: t => if eqb k k' then v else own_property k t
  end.

(** [xs.includes(s)] for a string [s]: SameValueZero against each element. *)
Definition Array_includes (s : jsstring) (xs : list jsval) : bool :=
  existsb (fun x => match x with JStr t => eqb t s | _ => false end) xs.

End JsValue.
Import JsValue.

(* ------------------------------------------------------------------ *)
(** ** The host: exceptions, promises, responses, events *)

Record js_error := { err_name : jsstring; err_message : jsstring }.

(** A promise as the script observes it once awaited. *)
Inductive settled (A : Type) :=
| Fulfilled (a : A)
| Rejected (e : js_error).
Arguments Fulfilled {A} a.
Arguments Rejected {A} e.

(** A response as [fetch] hands it over, its body not yet read. *)
Record Response := {
  status : Z;
  statusText : jsstring;
  (** whether [response.body] is a stream, rather than null *)
  has_body : bool;
  (** how [response.json()] settles when it is the first to read the body *)
  body_json : settled jsval;
  (** how [response.text()] settles when it is the first to read the body *)
  body_text : settled jsstring
}.

(** [Response.ok] of the Fetch standard: the status is in 200..299. *)
Definition ok (r : Response) : bool :=
  ((200 <=? status r) && (status r <=? 299))%Z.


Record request := {
  req_url : jsstring;
  req_method : jsstring;
  req_headers : list (jsstring * jsstring);
  req_body : option jsstring
}.

Inductive stream := console_log | console_warn | console_error.

Inductive event :=
| Console (s : stream) (line : jsstring)
| Sleep (ms : Z)
| Fetch (r : request) (timeout : Z).

(** Faults raised by the engine itself, as [TypeError]s. *)
Inductive engine_fault :=
| ReadOfNullish (key : jsstring)
| NotAFunction (callee : jsstring)
| NotPrimitive
| BodyUnusable.

(** What the script cannot decide: the wall clock, the network, and the
    engine's Unicode and JSON routines.  [network n r] answers the [n]-th
    request of the run; [None] means that the request is still pending when
    the abort timer fires. *)
Record Platform := {
  clock : nat -> jsstring;
  network : nat -> request -> option (settled Response);
  String_toLowerCase : jsstring -> jsstring;
  JSON_stringify : jsval -> jsstring;
  engine_message : engine_fault -> jsstring;
  abort_message : jsstring
}.

(** [process.env]: an unset variable reads as [undefined]. *)
Record Env := {
  KOYEB_LOGIN : option jsstring;
  TG_BOT_TOKEN : option jsstring;
  TG_CHAT_ID : option jsstring
}.

Record world := {
  ticks : nat;            (* clock readings taken so far *)
  fetches : nat;          (* requests issued so far *)
  trace : list event      (* observable events, oldest first *)
}.

Definition initial_world : world := {| ticks := 0; fetches := 0; trace := [] |}.

(* ------------------------------------------------------------------ *)
(** ** The effect monad *)

Inductive completion (A : Type) :=
| Normal (a : A)
| Throw (e : js_error)
| Exit (code : Z).
Arguments Normal {A} a.
Arguments Throw {A} e.
Arguments Exit {A} code.

Definition M (A : Type) := world -> completion A * world.

Definition ret {A} (a : A) : M A := fun w => (Normal a, w).

Definition bind {A B} (c : M A) (k : A -> M B) : M B :=
  fun w =>
    match c w with
    | (Normal a, w') => k a w'
    | (Throw e, w') => (Throw e, w')
    | (Exit code, w') => (Exit code, w')
    end.

Definition throw {A} (e : js_error) : M A := fun w => (Throw e, w).

(** [try { body } catch (error) { handler }]; [process.exit] is not an
    exception and passes through. *)
Definition try_catch {A} (body : M A) (handler : js_error -> M A) : M A :=
  fun w =>
    match body w with
    | (Throw e, w') => handler e w'
    | r => r
    end.

Definition process_exit {A} (code : Z) : M A := fun w => (Exit code, w).

Definition await {A} (p : settled A) : M A :=
  match p with
  | Fulfilled a => ret a
  | Rejected e => throw e
  end.

Definition emit (e : event) : M unit :=
  fun w => (Normal tt, {| ticks := ticks w; fetches := fetches w;
                          trace := trace w ++ [e] |}).

Declare Scope js_scope.
Delimit Scope js_scope with js.
Notation "x <- c ;; k" := (bind c (fun x => k))
  (at level 61, c at next level, right associativity) : js_scope.
Notation "c ;; k" := (bind c (fun _ => k))
  (at level 61, right associativity) : js_scope.
Open Scope js_scope.

Definition new_Error (message : jsstring) : js_error :=
  {| err_name := js "Error"; err_message := message |}.

(* ------------------------------------------------------------------ *)
(** ** The script *)

Definition KOYEB_PROFILE_URL : jsstring := js "https://app.koyeb.com/v1/account/profile".
Definition REQUEST_TIMEOUT : Z := 30000.

Record Account := { email : jsstring; pat : jsstring }.

(** The value returned by [verifyKoyebAccountStatus]. *)
Record outcome := { success : bool; message : jsstring }.

(** The branches of the decision chain on a 2xx profile. *)
Inductive branch :=
| BrSuccess
| BrInactive
| BrEmailNotValidated
| BrUnknown.

Section Script.

Variable P : Platform.
Variable E : Env.

Definition TypeError (f : engine_fault) : js_error :=
  {| err_name := js "TypeError"; err_message := engine_message P f |}.

Definition AbortError : js_error :=
  {| err_name := js "AbortError"; err_message := abort_message P |}.

(** [getBeijingTime]: the clock yields the [toLocaleString] rendering, in
    which every slash is then replaced by a dash. *)
Definition getBeijingTime : M jsstring :=
  fun w =>
    (Normal (replace_all 47%N 45%N (clock P (ticks w))),
     {| ticks := S (ticks w); fetches := fetches w; trace := trace w |}).

Definition logger_info (msg : jsstring) : M unit :=
  t <- getBeijingTime ;; emit (Console console_log (t ++ js " - INFO - " ++ msg)).

Definition logger_warn (msg : jsstring) : M unit :=
  t <- getBeijingTime ;; emit (Console console_warn (t ++ js " - WARN - " ++ msg)).

Definition logger_error (msg : jsstring) : M unit :=
  t <- getBeijingTime ;; emit (Console console_error (t ++ js " - ERROR - " ++ msg)).

Definition sleep (ms : Z) : M unit := emit (Sleep ms).

(** [fetchWithTimeout]: the request is issued with an abort timer of
    [timeout] ms.  A request still pending when the timer fires is aborted
    and rejects with an [AbortError]; otherwise the timer is cleared and
    the request's own settlement is returned. *)
Definition fetchWithTimeout (r : request) (timeout : Z) : M Response :=
  fun w =>
    let w' := {| ticks := ticks w; fetches := S (fetches w);
                 trace := trace w ++ [Fetch r timeout] |} in
    match network P (fetches w) r with
    | Some (Fulfilled response) => (Normal response, w')
    | Some (Rejected e) => (Throw e, w')
    | None => (Throw AbortError, w')
    end.

(** [v.key] for a key that no built-in prototype defines. *)
Definition member (v : jsval) (key : jsstring) : M jsval :=
  match v with
  | JUndefined | JNull => throw (TypeError (ReadOfNullish key))
  | JObj props => ret (own_property key props)
  | _ => ret JUndefined
  end.

(** [`${v}`] in a template literal: [ToString], which may throw. *)
Definition template_text (v : jsval) : M jsstring :=
  match ToString v with
  | Some s => ret s
  | None => throw (TypeError NotPrimitive)
  end.

(** [response.text()] once [response.json()] has been called on the same
    response.  A body is a stream that can be read once: the first read
    has consumed it, whether or not it parsed, and the second read rejects
    with a [TypeError].  Only a response without a body (as for a 304) is
    never used up, and reads as it would the first time. *)
Definition text_after_json (response : Response) : settled jsstring :=
  if has_body response then Rejected (TypeError BodyUnusable)
  else body_text response.

(** *** validateAndLoadAccounts *)

Definition colon : jsstring := [58%N].

Fixpoint load_lines (lines : list jsstring) (accounts : list Account)
  : M (list Account) :=
  match lines with
  | [] => ret accounts
  | rawLine :: rest =>
    let line := trim rawLine in
    if is_empty line || negb (includes colon line) then
      logger_warn (js "⚠️ 跳过无效或空行: " ++ line) ;;
      load_lines rest accounts
    else
      let colonIndex := indexOf colon line in
      let email := trim (substring line 0 (Some colonIndex)) in
      let pat := trim (substring line (colonIndex + 1) None) in
      if negb (is_empty email) && negb (is_empty pat) then
        load_lines rest (accounts ++ [{| email := email; pat := pat |}])
      else
        logger_error (js "⚠️ KOYEB_LOGIN 行格式错误，应为 email:PAT -> " ++ line) ;;
        load_lines rest accounts
  end.

Definition validateAndLoadAccounts : M (list Account) :=
  match KOYEB_LOGIN E with
  | None | Some [] =>
    logger_error (js "❌ KOYEB_LOGIN 变量未配置，脚本无法继续执行") ;;
    throw (new_Error (js "必须配置 KOYEB_LOGIN 环境变量"))
  | Some koyebLoginEnv =>
    accounts <- load_lines (split 10%N (trim koyebLoginEnv)) [] ;;
    if (List.length accounts =? 0)%nat then
      throw (new_Error (js "KOYEB_LOGIN 环境变量未包含任何有效账户信息"))
    else ret accounts
  end.

(** *** sendTgMessage *)

Definition telegram_request (botToken chatId message : jsstring) : request :=
  {| req_url := js "https://api.telegram.org/bot" ++ botToken ++ js "/sendMessage";
     req_method := js "POST";
     req_headers := [(js "Content-Type", js "application/json")];
     req_body := Some (JSON_stringify P
                   (JObj [(js "chat_id", JStr chatId);
                          (js "text", JStr message);
                          (js "parse_mode", JStr (js "Markdown"))])) |}.

Definition sendTgMessage (message : jsstring) : M jsval :=
  let botToken := match TG_BOT_TOKEN E with Some t => t | None => [] end in
  let chatId := match TG_CHAT_ID E with Some c => c | None => [] end in
  if is_empty botToken || is_empty chatId then
    logger_warn (js "⚠️ TG_BOT_TOKEN 或 TG_CHAT_ID 未设置，跳过发送 Telegram 消息。") ;;
    ret JNull
  else
    try_catch
      (response <- fetchWithTimeout (telegram_request botToken chatId message)
                     REQUEST_TIMEOUT ;;
       if negb (ok response) then
         errorText <- await (body_text response) ;;
         logger_error (js "❌ 发送 Telegram 消息时发生HTTP错误: "
                       ++ Number_toString (status response)) ;;
         logger_error (js "❌ 响应内容: " ++ errorText) ;;
         ret JNull
       else await (body_json response))
      (fun error =>
         (if eqb (err_name error) (js "AbortError") then
            logger_error (js "❌ 发送 Telegram 消息超时")
          else
            logger_error (js "❌ 发送 Telegram 消息失败: " ++ err_message error)) ;;
         ret JNull).

(** *** verifyKoyebAccountStatus *)

Definition koyeb_request (pat : jsstring) : request :=
  {| req_url := KOYEB_PROFILE_URL;
     req_method := js "GET";
     req_headers := [(js "Content-Type", js "application/json");
                     (js "Authorization", js "Bearer " ++ pat);
                     (js "User-Agent", js "KoyebAccountStatusChecker/1.0")];
     req_body := None |}.

(** [returnedEmail.toLowerCase()] *)
Definition call_toLowerCase (v : jsval) : M jsstring :=
  match v with
  | JStr s => ret (String_toLowerCase P s)
  | _ => throw (TypeError (NotAFunction (js "returnedEmail.toLowerCase")))
  end.

(** [flags.includes("ACTIVE")]: element search on an array, substring
    search on a string. *)
Definition call_includes (flags : jsval) (x : jsstring) : M bool :=
  match flags with
  | JArr xs => ret (Array_includes x xs)
  | JStr s => ret (includes x s)
  | _ => throw (TypeError (NotAFunction (js "flags.includes")))
  end.

(** [flags.join(', ')] *)
Definition call_join (flags : jsval) (sep : jsstring) : M jsstring :=
  match flags with
  | JArr xs =>
    match Array_join sep xs with
    | Some joined => ret joined
    | None => throw (TypeError NotPrimitive)
    end
  | _ => throw (TypeError (NotAFunction (js "flags.join")))
  end.

Definition decision (isActive : bool) (emailValidated : jsval) : branch :=
  if isActive && truthy emailValidated then BrSuccess
  else if negb isActive then BrInactive
  else if negb (truthy emailValidated) then BrEmailNotValidated
  else BrUnknown.

Definition verifyKoyebAccountStatus (email pat : jsstring) : M outcome :=
  if is_empty email || is_empty pat then
    ret {| success := false; message := js "邮箱或个人访问令牌 (PAT) 为空" |}
  else
    try_catch
      (response <- fetchWithTimeout (koyeb_request pat) REQUEST_TIMEOUT ;;
       if ((status response =? 401) || (status response =? 403))%Z then
         ret {| success := false; message := js "验证失败：PAT 无效或已过期。" |}
       else if negb (ok response) then
         errorMessage <-
           try_catch
             (errorData <- await (body_json response) ;;
              e <- member errorData (js "error") ;;
              ret (or_else e (JStr (statusText response))))
             (fun _ => t <- await (text_after_json response) ;; ret (JStr t)) ;;
         shown <- template_text errorMessage ;;
         ret {| success := false;
                message := js "原因: API错误 (状态码 "
                           ++ Number_toString (status response)
                           ++ js "): " ++ shown |}
       else
         profileData <- await (body_json response) ;;
         u <- member profileData (js "user") ;;
         let userInfo := or_else u (JObj []) in
         e <- member userInfo (js "email") ;;
         let returnedEmail := or_else e (JStr []) in
         f <- member userInfo (js "flags") ;;
         let flags := or_else f (JArr []) in
         v <- member userInfo (js "email_validated") ;;
         let emailValidated := or_else v (JBool false) in
         lowered <- call_toLowerCase returnedEmail ;;
         if negb (eqb lowered (String_toLowerCase P email)) then
           shown <- template_text returnedEmail ;;
           ret {| success := false;
                  message := js "验证失败：API返回邮箱(" ++ shown
                             ++ js ")与提供邮箱不匹配。" |}
         else
           isActive <- call_includes flags (js "ACTIVE") ;;
           match decision isActive emailValidated with
           | BrSuccess =>
             ret {| success := true; message := js "活跃且邮箱已验证" |}
           | BrInactive =>
             joined <- call_join flags (js ", ") ;;
             ret {| success := false;
                    message := js "原因: 非活跃 (Flags: " ++ joined ++ js ")" |}
           | BrEmailNotValidated =>
             ret {| success := false; message := js "原因: 邮箱未验证" |}
           | BrUnknown =>
             ret {| success := false;
                    message := js "原因: 未知账户: " ++ JSON_stringify P userInfo |}
           end)
      (fun error =>
         if eqb (err_name error) (js "AbortError") then
           ret {| success := false; message := js "原因: 请求超时" |}
         else
           ret {| success := false;
                  message := js "原因: 网络请求异常: " ++ err_message error |}).

End Script.

(** *** main *)

Section Main.

Variable P : Platform.
Variable E : Env.

(** The account check that [main] awaits inside its inner [try]. *)
Variable verify : jsstring -> jsstring -> M outcome.

Definition line_incomplete : jsstring :=
  js "账户: 未提供邮箱" ++ nl ++ js "状态: ❌ 信息不完整" ++ nl.

Definition line_checked (email : jsstring) (o : outcome) : jsstring :=
  let statusLine :=
    if success o then js "状态: ✅ " ++ message o
    else js "状态: ❌ 验证失败" ++ nl ++ js "  " ++ message o in
  js "账户: `" ++ email ++ js "`" ++ nl ++ statusLine ++ nl.

Definition line_exception (email : jsstring) (error : js_error) : jsstring :=
  js "账户: `" ++ email ++ js "`" ++ nl ++ js "状态: ❌ 验证失败" ++ nl
  ++ js "  执行时发生未知异常 - " ++ err_message error ++ nl.

(** The body of the [for] loop, from [index] on; [rest] is
    [koyebAccounts.slice(index)]. *)
Fixpoint verify_loop (totalAccounts : Z) (rest : list Account) (index : Z)
    (results : list jsstring) (successCount : Z) : M (list jsstring * Z) :=
  match rest with
  | [] => ret (results, successCount)
  | account :: rest' =>
    let email := trim (or_str (email account) []) in
    let pat := or_str (pat account) [] in
    if is_empty email || is_empty pat then
      logger_warn P (js "⚠️ 第 " ++ Number_toString (index + 1) ++ js "/"
                     ++ Number_toString totalAccounts
                     ++ js " 个账户信息不完整，已跳过") ;;
      verify_loop totalAccounts rest' (index + 1)
        (results ++ [line_incomplete]) successCount
    else
      logger_info P (js "🚀 正在处理第 " ++ Number_toString (index + 1) ++ js "/"
                     ++ Number_toString totalAccounts ++ js " 个账户: " ++ email) ;;
      sleep 10000 ;;
      st <- try_catch
              (o <- verify email pat ;;
               if success o then
                 ret (results ++ [line_checked email o], (successCount + 1)%Z)
               else
                 ret (results ++ [line_checked email o], successCount))
              (fun error =>
                 logger_error P (js "❌ 处理账户 " ++ email
                                 ++ js " 时发生未知异常: " ++ err_message error) ;;
                 ret (results ++ [line_exception email error], successCount)) ;;
      verify_loop totalAccounts rest' (index + 1) (fst st) (snd st)
  end.

Definition summary (totalAccounts successCount : Z) : jsstring :=
  js "📊 总计: " ++ Number_toString totalAccounts ++ js " 个账户" ++ nl
  ++ js "✅ 成功: " ++ Number_toString successCount ++ js " 个 | ❌ 失败: "
  ++ Number_toString (totalAccounts - successCount) ++ js " 个".

(** The report: [results.join('')] under the header, date and summary. *)
Definition render (currentTime : jsstring) (totalAccounts successCount : Z)
    (results : list jsstring) : jsstring :=
  let reportBody := join_strings [] results in
  js "🤖 *Koyeb 账户状态报告* 🤖" ++ nl
  ++ js "=====================" ++ nl
  ++ js "⏰ 日期: " ++ currentTime ++ nl
  ++ summary totalAccounts successCount ++ nl
  ++ js "---------------------------" ++ nl
  ++ reportBody.

Definition main_with : M unit :=
  try_catch
    (koyebAccounts <- validateAndLoadAccounts P E ;;
     currentTime <- getBeijingTime P ;;
     let totalAccounts := Z.of_nat (List.length koyebAccounts) in
     st <- verify_loop totalAccounts koyebAccounts 0 [] 0 ;;
     let results := fst st in
     let successCount := snd st in
     let tgMessage := render currentTime totalAccounts successCount results in
     logger_info P (js "📊 --- 报告预览 ---" ++ nl ++ tgMessage) ;;
     _ <- sendTgMessage P E tgMessage ;;
     logger_info P (js "🎉 脚本执行完毕。") ;;
     if ((successCount =? 0) && (0 <? totalAccounts))%Z then
       logger_error P (js "❌ 所有账户验证失败，脚本将以非零状态码退出") ;;
       process_exit 1
     else ret tt)
    (fun error =>
       let errorMessage := js "❌ 程序初始化失败: " ++ err_message error in
       logger_error P errorMessage ;;
       _ <- sendTgMessage P E errorMessage ;;
       process_exit 1).

End Main.

Definition main (P : Platform) (E : Env) : M unit :=
  main_with P E (verifyKoyebAccountStatus P).

(** The status the process ends with: the code given to [process.exit],
    0 when [main] runs to its end, 1 when its promise rejects unhandled. *)
Definition exit_status (c : completion unit) : Z :=
  match c with
  | Exit code => code
  | Normal _ => 0
  | Throw _ => 1
  end.

Definition run (P : Platform) (E : Env) : Z * list event :=
  let r := main P E initial_world in
  (exit_status (fst r), trace (snd r)).

(* ------------------------------------------------------------------ *)
(** ** Vocabulary for the properties *)

(** The world once a request has been issued. *)
Definition fetched (w : world) (r : request) : world :=
  {| ticks := ticks w; fetches := S (fetches w);
     trace := trace w ++ [Fetch r REQUEST_TIMEOUT] |}.

(** A computation that leaves the world alone and does not end the
    process. *)
Definition tame {A} (c : M A) : Prop :=
  exists r, (forall w, c w = (r, w)) /\ (forall code, r <> Exit code).

(** A tame computation that returns a value. *)
Definition normal {A} (c : M A) : Prop :=
  exists a, forall w, c w = (Normal a, w).

(** Pure readings of a JSON body, used to state what the checks see. *)
Definition property (v : jsval) (key : jsstring) : jsval :=
  match v with
  | JObj props => own_property key props
  | _ => JUndefined
  end.

Definition userInfo_of (profileData : jsval) : jsval :=
  or_else (property profileData (js "user")) (JObj []).

Definition returnedEmail_of (profileData : jsval) : jsval :=
  or_else (property (userInfo_of profileData) (js "email")) (JStr []).

Definition flags_of (profileData : jsval) : jsval :=
  or_else (property (userInfo_of profileData) (js "flags")) (JArr []).

Definition emailValidated_of (profileData : jsval) : jsval :=
  or_else (property (userInfo_of profileData) (js "email_validated")) (JBool false).

Definition nullish (v : jsval) : bool :=
  match v with JUndefined | JNull => true | _ => false end.

(** The reasons that the decision on a 2xx profile can give: success, a
    mismatch of the returned email, inactive flags, an email that is not
    validated. *)
Definition decision_reason (m : jsstring) : Prop :=
  m = js "活跃且邮箱已验证"
  \/ (exists shown,
        m = js "验证失败：API返回邮箱(" ++ shown ++ js ")与提供邮箱不匹配。")
  \/ (exists joined, m = js "原因: 非活跃 (Flags: " ++ joined ++ js ")")
  \/ m = js "原因: 邮箱未验证".


Definition is_console (e : event) : bool :=
  match e with Console _ _ => true | _ => false end.

(** [w'] extends [w] by console output only. *)
Definition quiet (w w' : world) : Prop :=
  fetches w' = fetches w
  /\ exists logs, trace w' = trace w ++ logs /\ forallb is_console logs = true.

(** What one iteration of the loading loop adds for [rawLine]. *)
Definition line_account (rawLine : jsstring) : option Account :=
  let line := trim rawLine in
  if is_empty line || negb (includes colon line) then None
  else
    let colonIndex := indexOf colon line in
    let email := trim (substring line 0 (Some colonIndex)) in
    let pat := trim (substring line (colonIndex + 1) None) in
    if negb (is_empty email) && negb (is_empty pat)
    then Some {| email := email; pat := pat |}
    else None.

Definition option_list {A} (o : option A) : list A :=
  match o with Some a => [a] | None => [] end.

(** What the loading loop adds for a list of lines. *)
Definition loaded (lines : list jsstring) : list Account :=
  flat_map (fun l => option_list (line_account l)) lines.

(** *** The configuration format in the words of the specification *)

(** Cut a line at the first occurrence of [sep]. *)
Fixpoint cut (sep : code_unit) (s : jsstring) : option (jsstring * jsstring) :=
  match s with
  | [] => None
  | c :: t =>
    if (c =? sep)%N then Some ([], t)
    else match cut sep t with
         | Some (a, b) => Some (c :: a, b)
         | None => None
         end
  end.

(** A line is well formed when it contains a colon and both sides of the
    first colon are non-empty once trimmed; its account is made of the two
    trimmed sides. *)
Definition account_of_line (line : jsstring) : option Account :=
  match cut 58%N line with
  | Some (identity, secret) =>
    if is_empty (trim identity) || is_empty (trim secret) then None
    else Some {| email := trim identity; pat := trim secret |}
  | None => None
  end.

(** The accounts of an input: those of its well-formed lines, in order. *)
Definition accounts_of_input (raw : jsstring) : list Account :=
  flat_map (fun line => option_list (account_of_line line)) (split 10%N raw).

Definition well_formed_line (line : jsstring) : bool :=
  match account_of_line line with Some _ => true | None => false end.

(** Prepend [p] to the first line. *)
Definition prepend (p : jsstring) (lines : list jsstring) : list jsstring :=
  match lines with
  | [] => [p]
  | h :: r => (p ++ h) :: r
  end.

(** The accounts that a configuration holds. *)
Definition configured_accounts (E : Env) : list Account :=
  match KOYEB_LOGIN E with
  | Some raw => accounts_of_input raw
  | None => []
  end.

Definition is_error_log (e : event) : bool :=
  match e with Console console_error _ => true | _ => false end.

Definition is_warn_log (e : event) : bool :=
  match e with Console console_warn _ => true | _ => false end.

(** An unset or empty environment variable. *)
Definition unset (v : option jsstring) : bool :=
  match v with None | Some [] => true | Some (_ :: _) => false end.

Definition env_text (v : option jsstring) : jsstring :=
  match v with Some t => t | None => [] end.

(** A delivery that fails: the request times out, fails in the network,
    or is answered outside 200..299. *)
Definition delivery_failed (answer : option (settled Response)) : bool :=
  match answer with
  | None | Some (Rejected _) => true
  | Some (Fulfilled response) => negb (ok response)
  end.

(** *** Worlds along a run *)

Definition stamp (P : Platform) (w : world) : jsstring :=
  replace_all 47%N 45%N (clock P (ticks w)).

(** The world after one call of the logger. *)
Definition logged (P : Platform) (s : stream) (text : jsstring) (w : world)
  : world :=
  {| ticks := S (ticks w); fetches := fetches w;
     trace := trace w ++ [Console s (stamp P w ++ text)] |}.

Definition slept (ms : Z) (w : world) : world :=
  {| ticks := ticks w; fetches := fetches w; trace := trace w ++ [Sleep ms] |}.

(** The identity and the secret that the loop reads from an account. *)
Definition clean_email (a : Account) : jsstring := trim (or_str (email a) []).
Definition clean_pat (a : Account) : jsstring := or_str (pat a) [].

(** An account that reaches its check. *)
Definition complete (a : Account) : bool :=
  negb (is_empty (clean_email a) || is_empty (clean_pat a)).

(** The world in which the check of an account starts: the account has
    been announced and the delay has elapsed. *)
Definition before_check (P : Platform) (totalAccounts index : Z) (a : Account)
    (w : world) : world :=
  slept 10000
    (logged P console_log
       (js " - INFO - " ++ js "🚀 正在处理第 " ++ Number_toString (index + 1)
        ++ js "/" ++ Number_toString totalAccounts ++ js " 个账户: "
        ++ clean_email a) w).

(** The world after the loop has logged an exception of a check. *)
Definition after_exception (P : Platform) (a : Account) (error : js_error)
    (w : world) : world :=
  logged P console_error
    (js " - ERROR - " ++ js "❌ 处理账户 " ++ clean_email a
     ++ js " 时发生未知异常: " ++ err_message error) w.

(** A check that never ends the process by itself. *)
Definition never_exits (verify : jsstring -> jsstring -> M outcome) : Prop :=
  forall email pat w code, fst (verify email pat w) <> Exit code.

(** *** The run of the script on its own check *)

(** The outcome of the check of [a] when [n] requests were issued before
    it. *)
Definition outcome_at (P : Platform) (n : nat) (a : Account) : outcome :=
  match fst (verifyKoyebAccountStatus P (clean_email a) (clean_pat a)
               {| ticks := 0; fetches := n; trace := [] |}) with
  | Normal o => o
  | _ => {| success := false; message := [] |}
  end.

(** The lines of the report, the number of successes and the timed events
    of a run over [accounts], the first check being request number [n]. *)
Fixpoint report_lines (P : Platform) (n : nat) (accounts : list Account)
  : list jsstring :=
  match accounts with
  | [] => []
  | a :: rest =>
    if complete a then
      line_checked (clean_email a) (outcome_at P n a) :: report_lines P (S n) rest
    else line_incomplete :: report_lines P n rest
  end.

Fixpoint successes (P : Platform) (n : nat) (accounts : list Account) : Z :=
  match accounts with
  | [] => 0
  | a :: rest =>
    if complete a then
      ((if success (outcome_at P n a) then 1 else 0) + successes P (S n) rest)%Z
    else successes P n rest
  end.

Definition checks (accounts : list Account) : list event :=
  flat_map (fun a => if complete a
                     then [Sleep 10000; Fetch (koyeb_request (clean_pat a)) REQUEST_TIMEOUT]
                     else []) accounts.

(** The events of a trace other than console output. *)
Definition timed (t : list event) : list event :=
  filter (fun e => negb (is_console e)) t.

(** The request that a notification issues, if any. *)
Definition notification (P : Platform) (E : Env) (message : jsstring)
  : list event :=
  if unset (TG_BOT_TOKEN E) || unset (TG_CHAT_ID E) then []
  else [Fetch (telegram_request P (env_text (TG_BOT_TOKEN E))
                 (env_text (TG_CHAT_ID E)) message) REQUEST_TIMEOUT].

(** The same host on another network. *)
Definition with_network (P : Platform)
    (net : nat -> request -> option (settled Response)) : Platform :=
  {| clock := clock P;
     network := net;
     String_toLowerCase := String_toLowerCase P;
     JSON_stringify := JSON_stringify P;
     engine_message := engine_message P;
     abort_message := abort_message P |}.

(** Push the lines one after the other, as the loop does. *)
Definition recorded (lines : list jsstring) : list jsstring :=
  fold_left (fun results line => results ++ [line]) lines [].

(** An event that belongs to no check: console output or a request to
    another address than the profile endpoint. *)
Definition outside_checks (e : event) : Prop :=
  match e with
  | Console _ _ => True
  | Sleep _ => False
  | Fetch r _ => req_url r <> KOYEB_PROFILE_URL
  end.

(** The text that reports a failed start. *)
Definition init_failure (e : js_error) : jsstring :=
  js "❌ 程序初始化失败: " ++ err_message e.

(** *** Accounts as the loader returns them *)

(** Identity and secret are non-empty and carry no surrounding white
    space; the identity holds no colon and neither holds a line feed. *)
Definition canonical (a : Account) : Prop :=
  email a <> [] /\ pat a <> []
  /\ trim (email a) = email a /\ trim (pat a) = pat a
  /\ ~ In 58%N (email a) /\ ~ In 10%N (email a) /\ ~ In 10%N (pat a).

(** The documented format: one [email:PAT] per line. *)
Definition format_accounts (accounts : list Account) : jsstring :=
  join_strings nl (map (fun a => email a ++ colon ++ pat a) accounts).

(* ------------------------------------------------------------------ *)
(** ** Concrete hosts and runs *)

Module Scenario.

(** The wording of the engine faults in Node.js. *)
Definition engine_text (f : engine_fault) : jsstring :=
  match f with
  | ReadOfNullish key =>
    js "Cannot read properties of null (reading '" ++ key ++ js "')"
  | NotAFunction callee => callee ++ js " is not a function"
  | NotPrimitive => js "Cannot convert object to primitive value"
  | BodyUnusable => js "Body is unusable: Body has already been read"
  end.

(** A host with a fixed clock and ASCII case mapping; its stringifier is
    only used for the body of the notification request. *)
Definition host (net : nat -> request -> option (settled Response)) : Platform :=
  {| clock := fun _ => js "2026/01/02 03:04:05";
     network := net;
     String_toLowerCase := toLowerAscii;
     JSON_stringify := fun _ => js "{}";
     engine_message := engine_text;
     abort_message := js "This operation was aborted" |}.

Definition profile (returned : jsstring) (flags : list jsval) (validated : bool)
  : jsval :=
  JObj [(js "user", JObj [(js "email", JStr returned);
                          (js "flags", JArr flags);
                          (js "email_validated", JBool validated)])].

Definition active_profile : jsval :=
  profile (js "A@x.com") [JStr (js "ACTIVE")] true.

Definition SyntaxError : js_error :=
  {| err_name := js "SyntaxError";
     err_message := js "Unexpected token < in JSON at position 0" |}.

(** The text of a JSON value whose strings need no escape. *)
Definition quoted (s : jsstring) : jsstring := [34%N] ++ s ++ [34%N].

Fixpoint json_text (v : jsval) : jsstring :=
  match v with
  | JUndefined | JNull => js "null"
  | JBool true => js "true"
  | JBool false => js "false"
  | JNum r => r
  | JStr s => quoted s
  | JArr xs => js "[" ++ join_strings (js ",") (map json_text xs) ++ js "]"
  | JObj props =>
    js "{"
    ++ join_strings (js ",")
         (map (fun p : jsstring * jsval =>
                 let (k, x) := p in quoted k ++ js ":" ++ json_text x)
              props)
    ++ js "}"
  end.

Definition ok_response (body : jsval) : Response :=
  {| status := 200; statusText := js "OK"; has_body := true;
     body_json := Fulfilled body; body_text := Fulfilled (json_text body) |}.

Definition html_200 : Response :=
  {| status := 200; statusText := js "OK"; has_body := true;
     body_json := Rejected SyntaxError;
     body_text := Fulfilled (js "<html></html>") |}.

Definition forbidden : Response :=
  {| status := 403; statusText := js "Forbidden"; has_body := true;
     body_json := Fulfilled (JObj [(js "error", JStr (js "forbidden"))]);
     body_text :=
       Fulfilled (json_text (JObj [(js "error", JStr (js "forbidden"))])) |}.

(** A 500 whose body is a page of text, not JSON. *)
Definition server_error : Response :=
  {| status := 500; statusText := js "Internal Server Error"; has_body := true;
     body_json := Rejected SyntaxError;
     body_text := Fulfilled (js "<h1>upstream down</h1>") |}.

(** A 500 whose body is the JSON text of [body]. *)
Definition json_500 (body : jsval) : Response :=
  {| status := 500; statusText := js "Internal Server Error"; has_body := true;
     body_json := Fulfilled body; body_text := Fulfilled (json_text body) |}.

(** A 304: the response has no body, and the empty text is not JSON. *)
Definition not_modified : Response :=
  {| status := 304; statusText := js "Not Modified"; has_body := false;
     body_json :=
       Rejected {| err_name := js "SyntaxError";
                   err_message := js "Unexpected end of JSON input" |};
     body_text := Fulfilled [] |}.

Definition always (r : Response) : nat -> request -> option (settled Response) :=
  fun _ _ => Some (Fulfilled r).

Definition never : nat -> request -> option (settled Response) :=
  fun _ _ => None.

(** The first account is active, the second is refused. *)
Definition first_ok_then_forbidden : nat -> request -> option (settled Response) :=
  fun n _ =>
    match n with
    | 0 => Some (Fulfilled (ok_response active_profile))
    | _ => Some (Fulfilled forbidden)
    end.

Definition env_of (login : option jsstring) : Env :=
  {| KOYEB_LOGIN := login; TG_BOT_TOKEN := None; TG_CHAT_ID := None |}.

Definition env_with_telegram (login : option jsstring) : Env :=
  {| KOYEB_LOGIN := login;
     TG_BOT_TOKEN := Some (js "123:abc");
     TG_CHAT_ID := Some (js "42") |}.

Definition two_accounts : jsstring :=
  js "a@x.com:tok1" ++ nl ++ js "b@x.com:tok2".

(** A check that always throws. *)
Definition failing_check : jsstring -> jsstring -> M outcome :=
  fun _ _ => throw (new_Error (js "boom")).

Definition alice : Account := {| email := js "a@x.com"; pat := js "tok1" |}.
Definition bob : Account := {| email := js "b@x.com"; pat := js "tok2" |}.

End Scenario.

(** Further answers of the network. *)
Module Cases.

(** A profile whose flags arrive as one text. *)
Definition text_flags_profile : jsval :=
  JObj [(js "user", JObj [(js "email", JStr (js "a@x.com"));
                          (js "flags", JStr (js "INACTIVE"));
                          (js "email_validated", JBool true)])].

(** A profile whose returned email is a number. *)
Definition numeric_email_profile : jsval :=
  JObj [(js "user", JObj [(js "email", JNum (js "12345"));
                          (js "flags", JArr [JStr (js "ACTIVE")]);
                          (js "email_validated", JBool true)])].

(** A profile whose flags arrive as one text without the marker. *)
Definition suspended_text_profile : jsval :=
  JObj [(js "user", JObj [(js "email", JStr (js "a@x.com"));
                          (js "flags", JStr (js "SUSPENDED"));
                          (js "email_validated", JBool true)])].

(** A profile whose only flag is an object with a member [toString]. *)
Definition object_flag_profile : jsval :=
  Scenario.profile (js "a@x.com") [JObj [(js "toString", JNum (js "1"))]] true.

(** A 2xx answer whose JSON body is [null]. *)
Definition null_body : Response := Scenario.ok_response JNull.

(** The answer of the messaging service to a delivered message. *)
Definition delivered : Response :=
  {| status := 200; statusText := js "OK"; has_body := true;
     body_json := Fulfilled (JObj [(js "ok", JBool true)]);
     body_text := Fulfilled (Scenario.json_text (JObj [(js "ok", JBool true)])) |}.

End Cases.

(* ================================================================== *)
(** * Properties *)

Arguments js : simpl never.
Unset Implicit Arguments.

(** ** Strings *)

Lemma eqb_eq a b : eqb a b = true <-> a = b.
Proof. unfold eqb. destruct (list_eq_dec N.eq_dec a b); split; congruence. Qed.

Lemma eqb_neq a b : eqb a b = false <-> a <> b.
Proof. unfold eqb. destruct (list_eq_dec N.eq_dec a b); split; congruence. Qed.

Lemma eqb_refl a : eqb a a = true.
Proof. now apply eqb_eq. Qed.

Lemma is_empty_false (s : jsstring) : s <> [] -> is_empty s = false.
Proof. destruct s; [congruence | reflexivity]. Qed.

Lemma is_empty_true (s : jsstring) : is_empty s = true <-> s = [].
Proof. destruct s; simpl; split; congruence. Qed.

(** *** Trimming *)

Lemma colon_not_whitespace : is_whitespace 58%N = false.
Proof. reflexivity. Qed.

Lemma newline_whitespace : is_whitespace 10%N = true.
Proof. reflexivity. Qed.

Lemma trimStart_idem s : trimStart (trimStart s) = trimStart s.
Proof.
  induction s as [|c t IH]; simpl; [reflexivity|].
  destruct (is_whitespace c) eqn:Hc; [exact IH|]. simpl. now rewrite Hc.
Qed.

Lemma trimEnd_cons_nonws c t :
  is_whitespace c = false -> trimEnd (c :: t) = c :: trimEnd t.
Proof. intros Hc. simpl. rewrite Hc. destruct (trimEnd t); reflexivity. Qed.

Lemma trimEnd_cons_nonempty c t :
  trimEnd t <> [] -> trimEnd (c :: t) = c :: trimEnd t.
Proof. intros Ht. simpl. destruct (trimEnd t); [congruence | reflexivity]. Qed.

Lemma trimEnd_cons_ws c t :
  is_whitespace c = true -> trimEnd t = [] -> trimEnd (c :: t) = [].
Proof. intros Hc Ht. simpl. now rewrite Ht, Hc. Qed.

Lemma trimEnd_idem s : trimEnd (trimEnd s) = trimEnd s.
Proof.
  induction s as [|c t IH]; [reflexivity|].
  destruct (trimEnd t) as [|d t'] eqn:Ht.
  - destruct (is_whitespace c) eqn:Hc.
    + now rewrite (trimEnd_cons_ws _ _ Hc Ht).
    + rewrite (trimEnd_cons_nonws _ _ Hc), Ht. simpl. now rewrite Hc.
  - assert (Hne : trimEnd t <> []) by (rewrite Ht; discriminate).
    rewrite (trimEnd_cons_nonempty _ _ Hne), Ht.
    rewrite trimEnd_cons_nonempty; rewrite IH; [reflexivity | discriminate].
Qed.

Lemma trimStart_trimEnd s : trimStart (trimEnd s) = trimEnd (trimStart s).
Proof.
  induction s as [|c t IH]; [reflexivity|].
  destruct (is_whitespace c) eqn:Hc.
  - simpl trimStart at 2. rewrite Hc.
    destruct (trimEnd t) as [|d t'] eqn:Ht.
    + rewrite (trimEnd_cons_ws _ _ Hc Ht). rewrite <- IH. reflexivity.
    + assert (Hne : trimEnd t <> []) by (rewrite Ht; discriminate).
      rewrite (trimEnd_cons_nonempty _ _ Hne). simpl. rewrite Hc.
      rewrite <- IH, Ht. reflexivity.
  - simpl trimStart at 2. rewrite Hc.
    rewrite (trimEnd_cons_nonws _ _ Hc). simpl. now rewrite Hc.
Qed.

Lemma trim_idem s : trim (trim s) = trim s.
Proof.
  unfold trim. rewrite trimStart_trimEnd, trimStart_idem, trimEnd_idem.
  reflexivity.
Qed.

Lemma trim_trimStart s : trim (trimStart s) = trim s.
Proof. unfold trim. now rewrite trimStart_idem. Qed.

Lemma trim_trimEnd s : trim (trimEnd s) = trim s.
Proof. unfold trim. now rewrite trimStart_trimEnd, trimEnd_idem. Qed.

Lemma trim_cons_ws c s : is_whitespace c = true -> trim (c :: s) = trim s.
Proof. intros Hc. unfold trim. simpl. now rewrite Hc. Qed.

Lemma trimEnd_all_ws ws : forallb is_whitespace ws = true -> trimEnd ws = [].
Proof.
  induction ws as [|c t IH]; [reflexivity|]. simpl forallb.
  intros H. apply andb_true_iff in H as [Hc Ht].
  apply trimEnd_cons_ws; auto.
Qed.

Lemma trimEnd_app_ws s ws :
  forallb is_whitespace ws = true -> trimEnd (s ++ ws) = trimEnd s.
Proof.
  intros Hws. induction s as [|c t IH].
  - simpl. now apply trimEnd_all_ws.
  - simpl. rewrite IH. reflexivity.
Qed.

Lemma trim_app_ws s ws :
  forallb is_whitespace ws = true -> trim (s ++ ws) = trim s.
Proof.
  intros Hws. unfold trim.
  rewrite <- !trimStart_trimEnd, trimEnd_app_ws by exact Hws. reflexivity.
Qed.

Lemma trim_all_ws ws : forallb is_whitespace ws = true -> trim ws = [].
Proof. intros H. apply (trim_app_ws [] ws H). Qed.

(** A string is its trimmed end followed by white space. *)
Lemma trimEnd_decompose s :
  exists ws, s = trimEnd s ++ ws /\ forallb is_whitespace ws = true.
Proof.
  induction s as [|c t [ws [Ht Hws]]].
  - exists []. split; reflexivity.
  - destruct (trimEnd t) as [|d t'] eqn:Het.
    + destruct (is_whitespace c) eqn:Hc.
      * exists (c :: t). rewrite (trimEnd_cons_ws _ _ Hc Het). split; [reflexivity|].
        simpl. rewrite Hc. simpl in Ht. now rewrite Ht.
      * exists ws. rewrite (trimEnd_cons_nonws _ _ Hc), Het. simpl in *.
        split; [now rewrite <- Ht | exact Hws].
    + exists ws. assert (Hne : trimEnd t <> []) by (rewrite Het; discriminate).
      rewrite (trimEnd_cons_nonempty _ _ Hne), Het.
      split; [simpl; now rewrite Ht at 1 | exact Hws].
Qed.

Lemma In_trimStart x s : In x (trimStart s) -> In x s.
Proof.
  induction s as [|c t IH]; simpl; [tauto|].
  destruct (is_whitespace c); [auto | simpl; tauto].
Qed.

Lemma In_trimEnd x s : In x (trimEnd s) -> In x s.
Proof.
  induction s as [|c t IH]; simpl; [tauto|].
  destruct (trimEnd t) as [|d t'].
  - destruct (is_whitespace c); simpl; tauto.
  - simpl in *. tauto.
Qed.

Lemma trimStart_app_nonws a c b :
  is_whitespace c = false -> trimStart (a ++ c :: b) = trimStart a ++ c :: b.
Proof.
  intros Hc. induction a as [|d a IH]; simpl.
  - now rewrite Hc.
  - destruct (is_whitespace d); [exact IH | reflexivity].
Qed.

Lemma trimEnd_app_nonws a c b :
  is_whitespace c = false -> trimEnd (a ++ c :: b) = a ++ c :: trimEnd b.
Proof.
  intros Hc. induction a as [|d a IH].
  - apply trimEnd_cons_nonws, Hc.
  - change ((d :: a) ++ c :: b) with (d :: (a ++ c :: b)).
    rewrite trimEnd_cons_nonempty; rewrite IH; [reflexivity|].
    destruct a; discriminate.
Qed.

(** *** Searching and cutting *)

Lemma cut_Some sep s a b :
  cut sep s = Some (a, b) -> s = a ++ sep :: b /\ ~ In sep a.
Proof.
  revert a b. induction s as [|c t IH]; intros a b; simpl; [discriminate|].
  destruct (N.eqb_spec c sep) as [-> | Hne].
  - intros [= <- <-]. split; [reflexivity | simpl; tauto].
  - destruct (cut sep t) as [[a' b']|]; [|discriminate].
    intros [= <- <-]. destruct (IH a' b' eq_refl) as [-> Hin].
    split; [reflexivity|]. simpl. intros [H | H]; [congruence | tauto].
Qed.

Lemma cut_None sep s : cut sep s = None -> ~ In sep s.
Proof.
  induction s as [|c t IH]; simpl; [tauto|].
  destruct (N.eqb_spec c sep) as [-> | Hne]; [discriminate|].
  destruct (cut sep t) as [[a' b']|]; [discriminate|].
  intros _ [H | H]; [congruence | tauto].
Qed.

Lemma includes_unit c s : includes [c] s = true <-> In c s.
Proof.
  induction s as [|d t IH]; simpl.
  - split; [discriminate | tauto].
  - rewrite orb_true_iff, IH, andb_true_r, N.eqb_eq.
    split; intros [H | H]; auto.
Qed.

Lemma indexOf_from_unit c a b i :
  ~ In c a -> indexOf_from [c] (a ++ c :: b) i = (i + Z.of_nat (List.length a))%Z.
Proof.
  revert i. induction a as [|d a IH]; intros i Hin.
  - simpl. rewrite N.eqb_refl. simpl. lia.
  - simpl in Hin.
    change (indexOf_from [c] ((d :: a) ++ c :: b) i)
      with (if ((c =? d)%N && true) then i
            else indexOf_from [c] (a ++ c :: b) (i + 1)%Z).
    destruct (N.eqb_spec c d) as [-> | Hne]; [tauto|].
    simpl andb. cbv iota. rewrite IH by tauto.
    change (List.length (d :: a)) with (S (List.length a)). lia.
Qed.

Lemma substring_before a c b :
  substring (a ++ c :: b) 0 (Some (Z.of_nat (List.length a))) = a.
Proof.
  unfold substring, clamp. rewrite length_app. simpl List.length.
  replace (Z.max 0 (Z.min 0 (Z.of_nat (List.length a + S (List.length b))))) with 0%Z by lia.
  replace (Z.max 0 (Z.min (Z.of_nat (List.length a))
                          (Z.of_nat (List.length a + S (List.length b)))))
    with (Z.of_nat (List.length a)) by lia.
  rewrite Z.min_l, Z.max_r by lia.
  simpl Z.to_nat. rewrite Nat2Z.id, Nat.sub_0_r. simpl skipn.
  rewrite firstn_app, Nat.sub_diag, firstn_all. simpl. apply app_nil_r.
Qed.

Lemma substring_after a c b :
  substring (a ++ c :: b) (Z.of_nat (List.length a) + 1) None = b.
Proof.
  unfold substring, clamp. rewrite length_app. simpl List.length.
  replace (Z.max 0 (Z.min (Z.of_nat (List.length a) + 1)
                          (Z.of_nat (List.length a + S (List.length b)))))
    with (Z.of_nat (S (List.length a))) by lia.
  rewrite Z.min_l, Z.max_r by lia.
  rewrite !Nat2Z.id.
  replace (List.length a + S (List.length b) - S (List.length a))%nat
    with (List.length b) by lia.
  replace (S (List.length a)) with (List.length (a ++ [c]))
    by (rewrite length_app; simpl; lia).
  replace (a ++ c :: b) with ((a ++ [c]) ++ b) by (now rewrite <- app_assoc).
  rewrite skipn_app, skipn_all, Nat.sub_diag. simpl. apply firstn_all.
Qed.

(** *** One line of the configuration *)

(** The loading loop reads a line exactly as the specification words it:
    trimming the line before the cut does not change the two trimmed
    sides. *)
Lemma line_account_spec rawLine : line_account rawLine = account_of_line rawLine.
Proof.
  unfold line_account, account_of_line, colon.
  destruct (cut 58%N rawLine) as [[a b]|] eqn:Hcut.
  - apply cut_Some in Hcut as [-> Hin].
    assert (Htrim : trim (a ++ 58%N :: b) = trimStart a ++ 58%N :: trimEnd b).
    { unfold trim.
      rewrite trimStart_app_nonws, trimEnd_app_nonws by reflexivity.
      reflexivity. }
    rewrite Htrim.
    assert (Hin' : ~ In 58%N (trimStart a))
      by (intros H; apply Hin, In_trimStart, H).
    assert (Hinc : includes [58%N] (trimStart a ++ 58%N :: trimEnd b) = true).
    { apply includes_unit, in_or_app. right. now left. }
    rewrite Hinc.
    assert (Hne : is_empty (trimStart a ++ 58%N :: trimEnd b) = false)
      by (destruct (trimStart a); reflexivity).
    rewrite Hne. cbn [orb negb].
    unfold indexOf. rewrite indexOf_from_unit by exact Hin'.
    rewrite Z.add_0_l, substring_before, substring_after.
    rewrite trim_trimStart, trim_trimEnd.
    destruct (is_empty (trim a)), (is_empty (trim b)); reflexivity.
  - apply cut_None in Hcut.
    assert (Hinc : includes [58%N] (trim rawLine) = false).
    { destruct (includes [58%N] (trim rawLine)) eqn:H; [|reflexivity].
      apply includes_unit in H. unfold trim in H.
      apply In_trimEnd, In_trimStart in H. contradiction. }
    rewrite Hinc. now rewrite orb_true_r.
Qed.

Lemma line_account_trim l1 l2 : trim l1 = trim l2 -> line_account l1 = line_account l2.
Proof. intros H. unfold line_account. now rewrite H. Qed.

Lemma line_account_all_ws ws :
  forallb is_whitespace ws = true -> line_account ws = None.
Proof. intros H. unfold line_account. now rewrite (trim_all_ws _ H). Qed.

(** *** The lines of an input *)

Lemma split_cons sep c t :
  split sep (c :: t)
  = if (c =? sep)%N then [] :: split sep t else prepend [c] (split sep t).
Proof. simpl. destruct (c =? sep)%N, (split sep t); reflexivity. Qed.

Lemma split_not_nil sep s : split sep s <> [].
Proof.
  destruct s as [|c t]; [discriminate|]. rewrite split_cons.
  destruct (c =? sep)%N; [discriminate|]. destruct (split sep t); discriminate.
Qed.

Lemma prepend_prepend p q lines :
  prepend p (prepend q lines) = prepend (p ++ q) lines.
Proof. destruct lines; simpl; [reflexivity | now rewrite app_assoc]. Qed.

Lemma prepend_nil lines : lines <> [] -> prepend [] lines = lines.
Proof. destruct lines; [congruence | reflexivity]. Qed.

Lemma split_all_ws sep ws :
  forallb is_whitespace ws = true ->
  Forall (fun l => forallb is_whitespace l = true) (split sep ws).
Proof.
  induction ws as [|c t IH]; simpl forallb; intros H.
  - repeat constructor.
  - apply andb_true_iff in H as [Hc Ht]. specialize (IH Ht).
    rewrite split_cons. destruct (c =? sep)%N.
    + constructor; [reflexivity | exact IH].
    + destruct (split sep t) as [|h r]; simpl.
      * repeat constructor. simpl. now rewrite Hc.
      * inversion IH; subst. constructor; [|assumption].
        simpl. now rewrite Hc.
Qed.

Lemma loaded_cons l lines :
  loaded (l :: lines) = option_list (line_account l) ++ loaded lines.
Proof. reflexivity. Qed.

Lemma loaded_all_ws lines :
  Forall (fun l => forallb is_whitespace l = true) lines -> loaded lines = [].
Proof.
  induction 1 as [|l lines Hl _ IH]; [reflexivity|].
  now rewrite loaded_cons, (line_account_all_ws _ Hl), IH.
Qed.

Lemma loaded_prepend p lines :
  lines <> [] ->
  loaded (prepend p lines)
  = option_list (line_account (p ++ hd [] lines)) ++ loaded (tl lines).
Proof. destruct lines; [congruence | reflexivity]. Qed.

(** White space in front of an input adds no account. *)
Lemma loaded_trimStart s : loaded (split 10%N (trimStart s)) = loaded (split 10%N s).
Proof.
  induction s as [|c t IH]; [reflexivity|].
  simpl trimStart. destruct (is_whitespace c) eqn:Hc; [|reflexivity].
  rewrite IH, split_cons. destruct (c =? 10)%N.
  - now rewrite loaded_cons.
  - pose proof (split_not_nil 10%N t) as Hne.
    destruct (split 10%N t) as [|h r]; [congruence|].
    simpl prepend. rewrite !loaded_cons.
    now rewrite (line_account_trim (c :: h) h (trim_cons_ws _ _ Hc)).
Qed.

(** White space behind an input adds no account, whatever precedes the
    first line. *)
Lemma loaded_app_ws ws :
  forallb is_whitespace ws = true ->
  forall x p,
    loaded (prepend p (split 10%N (x ++ ws))) = loaded (prepend p (split 10%N x)).
Proof.
  intros Hws. induction x as [|c t IH]; intros p.
  - pose proof (split_all_ws 10%N ws Hws) as Hall.
    pose proof (split_not_nil 10%N ws) as Hne.
    rewrite app_nil_l. destruct (split 10%N ws) as [|w0 wl]; [congruence|].
    inversion Hall; subst. simpl prepend. rewrite !loaded_cons.
    rewrite (loaded_all_ws wl) by assumption.
    now rewrite (line_account_trim (p ++ w0) (p ++ []))
      by (rewrite app_nil_r; now apply trim_app_ws).
  - change ((c :: t) ++ ws) with (c :: (t ++ ws)). rewrite !split_cons.
    destruct (c =? 10)%N.
    + simpl prepend. rewrite !loaded_cons. f_equal.
      specialize (IH []). rewrite !prepend_nil in IH by apply split_not_nil.
      exact IH.
    + rewrite !prepend_prepend. apply IH.
Qed.

Lemma loaded_trimEnd s : loaded (split 10%N (trimEnd s)) = loaded (split 10%N s).
Proof.
  destruct (trimEnd_decompose s) as [ws [Hs Hws]].
  rewrite Hs at 2.
  pose proof (loaded_app_ws ws Hws (trimEnd s) []) as H.
  rewrite !prepend_nil in H by apply split_not_nil. now rewrite H.
Qed.

(** The loading loop's lines are those of the trimmed input; trimming the
    whole input first does not change the accounts. *)
Lemma loaded_trim raw : loaded (split 10%N (trim raw)) = accounts_of_input raw.
Proof.
  unfold trim. rewrite loaded_trimEnd, loaded_trimStart.
  unfold loaded, accounts_of_input.
  apply flat_map_ext. intros l. now rewrite line_account_spec.
Qed.

(** ** The effect monad *)

Lemma run_bind {A B} (c : M A) (k : A -> M B) w :
  bind c k w = match c w with
               | (Normal a, w') => k a w'
               | (Throw e, w') => (Throw e, w')
               | (Exit code, w') => (Exit code, w')
               end.
Proof. reflexivity. Qed.

Lemma run_try {A} (c : M A) (h : js_error -> M A) w :
  try_catch c h w = match c w with
                    | (Throw e, w') => h e w'
                    | r => r
                    end.
Proof. reflexivity. Qed.

Lemma run_ret {A} (a : A) w : ret a w = (Normal a, w).
Proof. reflexivity. Qed.

Lemma run_throw {A} (e : js_error) w : @throw A e w = (Throw e, w).
Proof. reflexivity. Qed.

Lemma normal_tame {A} (c : M A) : normal c -> tame c.
Proof. intros [a H]. exists (Normal a). split; [exact H | discriminate]. Qed.

Lemma normal_ret {A} (a : A) : normal (ret a).
Proof. exists a. reflexivity. Qed.

Lemma tame_ret {A} (a : A) : tame (ret a).
Proof. apply normal_tame, normal_ret. Qed.

Lemma tame_throw {A} e : tame (@throw A e).
Proof. exists (Throw e). split; [reflexivity | discriminate]. Qed.

Lemma tame_await {A} (p : settled A) : tame (await p).
Proof. destruct p; [apply tame_ret | apply tame_throw]. Qed.

Lemma tame_bind {A B} (c : M A) (k : A -> M B) :
  tame c -> (forall a, tame (k a)) -> tame (bind c k).
Proof.
  intros [r [Hr Hx]] Hk. destruct r as [a | e | code].
  - destruct (Hk a) as [r' [Hr' Hx']]. exists r'. split; [|exact Hx'].
    intros w. rewrite run_bind, Hr. apply Hr'.
  - exists (Throw e). split; [|discriminate].
    intros w. rewrite run_bind, Hr. reflexivity.
  - now contradiction (Hx code).
Qed.

Lemma tame_try {A} (c : M A) (h : js_error -> M A) :
  tame c -> (forall e, tame (h e)) -> tame (try_catch c h).
Proof.
  intros [r [Hr Hx]] Hh. destruct r as [a | e | code].
  - exists (Normal a). split; [|discriminate].
    intros w. rewrite run_try, Hr. reflexivity.
  - destruct (Hh e) as [r' [Hr' Hx']]. exists r'. split; [|exact Hx'].
    intros w. rewrite run_try, Hr. apply Hr'.
  - now contradiction (Hx code).
Qed.

Lemma normal_try {A} (c : M A) (h : js_error -> M A) :
  tame c -> (forall e, normal (h e)) -> normal (try_catch c h).
Proof.
  intros [r [Hr Hx]] Hh. destruct r as [a | e | code].
  - exists a. intros w. rewrite run_try, Hr. reflexivity.
  - destruct (Hh e) as [a Ha]. exists a.
    intros w. rewrite run_try, Hr. apply Ha.
  - now contradiction (Hx code).
Qed.

Lemma tame_member P v key : tame (member P v key).
Proof. destruct v; simpl; first [apply tame_ret | apply tame_throw]. Qed.

Lemma tame_call_toLowerCase P v : tame (call_toLowerCase P v).
Proof. destruct v; simpl; first [apply tame_ret | apply tame_throw]. Qed.

Lemma tame_call_includes P v x : tame (call_includes P v x).
Proof. destruct v; simpl; first [apply tame_ret | apply tame_throw]. Qed.

Lemma tame_call_join P v x : tame (call_join P v x).
Proof.
  destruct v; simpl; try destruct (Array_join _ _);
    first [apply tame_ret | apply tame_throw].
Qed.

Lemma tame_template_text P v : tame (template_text P v).
Proof.
  unfold template_text. destruct (ToString v); [apply tame_ret | apply tame_throw].
Qed.

Create HintDb js_tame.
#[export] Hint Resolve tame_ret tame_throw tame_await tame_member
  tame_call_toLowerCase tame_call_includes tame_call_join tame_template_text
  normal_ret : js_tame.

(** Decompose a goal [tame c] or [normal c] along the structure of [c]. *)
Ltac tame_step :=
  lazymatch goal with
  | |- tame (bind _ _) => apply tame_bind; [|intro]
  | |- tame (try_catch _ _) => apply tame_try; [|intro]
  | |- normal (try_catch _ _) => apply normal_try; [|intro]
  | |- tame (if ?b then _ else _) => destruct b
  | |- normal (if ?b then _ else _) => destruct b
  | |- tame (match ?x with _ => _ end) => destruct x
  | |- normal (match ?x with _ => _ end) => destruct x
  | |- _ => solve [auto with js_tame]
  end.

Ltac tame := repeat tame_step.

(** Symbolic execution of a monadic term: unfold one sequencing step or
    split on the value that the next step inspects. *)
Ltac exec_step :=
  first
    [ rewrite run_ret | rewrite run_throw | rewrite run_bind | rewrite run_try
    | match goal with
      | |- context [match ?x with _ => _ end] =>
        lazymatch x with
        | context [match _ with _ => _ end] => fail
        | _ => destruct x eqn:?
        end
      end ].

Ltac exec := repeat exec_step.

(** Evaluate the steps of a monadic term that are decided. *)
Ltac run_steps :=
  repeat first
    [ rewrite run_try | rewrite run_bind | rewrite run_ret | rewrite run_throw
    | progress cbv iota beta ].

(** ** The console *)

Lemma quiet_refl w : quiet w w.
Proof. split; [reflexivity|]. exists []. now rewrite app_nil_r. Qed.

Lemma quiet_trans w1 w2 w3 : quiet w1 w2 -> quiet w2 w3 -> quiet w1 w3.
Proof.
  intros [Hf [l1 [Ht1 Hl1]]] [Hf' [l2 [Ht2 Hl2]]]. split; [congruence|].
  exists (l1 ++ l2). rewrite Ht2, Ht1, app_assoc.
  split; [reflexivity|]. now rewrite forallb_app, Hl1, Hl2.
Qed.

Lemma logger_info_run P msg w :
  exists w', logger_info P msg w = (Normal tt, w') /\ quiet w w'.
Proof.
  eexists. split; [reflexivity|]. split; [reflexivity|].
  eexists. split; reflexivity.
Qed.

Lemma logger_warn_run P msg w :
  exists w', logger_warn P msg w = (Normal tt, w') /\ quiet w w'.
Proof.
  eexists. split; [reflexivity|]. split; [reflexivity|].
  eexists. split; reflexivity.
Qed.

Lemma logger_error_run P msg w :
  exists w', logger_error P msg w = (Normal tt, w') /\ quiet w w'.
Proof.
  eexists. split; [reflexivity|]. split; [reflexivity|].
  eexists. split; reflexivity.
Qed.

(** ** validateAndLoadAccounts *)

Lemma load_lines_run P lines :
  forall accounts w, exists w',
    load_lines P lines accounts w = (Normal (accounts ++ loaded lines), w')
    /\ quiet w w'.
Proof.
  induction lines as [|rawLine rest IH]; intros accounts w.
  - exists w. simpl. unfold loaded. simpl. rewrite app_nil_r.
    split; [reflexivity | apply quiet_refl].
  - rewrite loaded_cons.
    cbn [load_lines]. unfold line_account.
    destruct (is_empty (trim rawLine) || negb (includes colon (trim rawLine))).
    + rewrite run_bind.
      destruct (logger_warn_run P (js "⚠️ 跳过无效或空行: " ++ trim rawLine) w)
        as [w1 [-> Hq1]].
      destruct (IH accounts w1) as [w2 [-> Hq2]].
      exists w2. split; [reflexivity | eapply quiet_trans; eassumption].
    + destruct (negb (is_empty _) && negb (is_empty _)).
      * destruct (IH (accounts ++ [{| email := trim (substring (trim rawLine) 0
                         (Some (indexOf colon (trim rawLine))));
                       pat := trim (substring (trim rawLine)
                         (indexOf colon (trim rawLine) + 1) None) |}]) w)
          as [w2 [-> Hq2]].
        exists w2. split; [|exact Hq2]. simpl. now rewrite <- app_assoc.
      * rewrite run_bind.
        destruct (logger_error_run P
                    (js "⚠️ KOYEB_LOGIN 行格式错误，应为 email:PAT -> " ++ trim rawLine) w)
          as [w1 [-> Hq1]].
        destruct (IH accounts w1) as [w2 [-> Hq2]].
        exists w2. split; [reflexivity | eapply quiet_trans; eassumption].
Qed.


Lemma accounts_of_empty : accounts_of_input [] = [].
Proof. reflexivity. Qed.

(** Loading either returns the configured accounts, when there are some,
    or throws; it writes to the console only. *)
Lemma validate_run P E w :
  exists w', quiet w w'
    /\ ((configured_accounts E <> []
         /\ validateAndLoadAccounts P E w = (Normal (configured_accounts E), w'))
        \/ (configured_accounts E = []
            /\ exists e, validateAndLoadAccounts P E w = (Throw e, w'))).
Proof.
  unfold validateAndLoadAccounts, configured_accounts.
  destruct (KOYEB_LOGIN E) as [[|c raw]|].
  - rewrite run_bind.
    destruct (logger_error_run P (js "❌ KOYEB_LOGIN 变量未配置，脚本无法继续执行") w)
      as [w1 [-> Hq]].
    exists w1. split; [exact Hq|]. right. split; [reflexivity|].
    eexists. reflexivity.
  - rewrite run_bind.
    destruct (load_lines_run P (split 10%N (trim (c :: raw))) [] w)
      as [w1 [-> Hq]].
    rewrite app_nil_l, loaded_trim.
    exists w1. split; [exact Hq|].
    destruct (accounts_of_input (c :: raw)) as [|a accs].
    + right. split; [reflexivity|]. eexists. reflexivity.
    + left. split; [discriminate | reflexivity].
  - rewrite run_bind.
    destruct (logger_error_run P (js "❌ KOYEB_LOGIN 变量未配置，脚本无法继续执行") w)
      as [w1 [-> Hq]].
    exists w1. split; [exact Hq|]. right. split; [reflexivity|].
    eexists. reflexivity.
Qed.

Lemma length_accounts_of_input raw :
  List.length (accounts_of_input raw)
  = List.length (filter well_formed_line (split 10%N raw)).
Proof.
  unfold accounts_of_input. induction (split 10%N raw) as [|l lines IH].
  - reflexivity.
  - simpl. unfold well_formed_line at 1.
    destruct (account_of_line l); simpl; now rewrite IH.
Qed.

(** C2 (as amended): for every configuration input with at least one
    well-formed line, loading returns exactly the accounts of its
    well-formed lines, in the order of the lines: a line counts when it
    holds a colon and both sides of its first colon are non-empty once
    trimmed, and its account is made of the two trimmed sides; every other
    line is skipped.  There are as many accounts as well-formed lines.  An
    input without any well-formed line makes loading throw instead. *)
Theorem load_accounts_of_input :
  forall (P : Platform) (E : Env) (raw : jsstring) (w : world),
    KOYEB_LOGIN E = Some raw ->
    (accounts_of_input raw <> [] ->
       fst (validateAndLoadAccounts P E w) = Normal (accounts_of_input raw))
    /\ (accounts_of_input raw = [] ->
        exists e, fst (validateAndLoadAccounts P E w) = Throw e)
    /\ List.length (accounts_of_input raw)
       = List.length (filter well_formed_line (split 10%N raw)).
Proof.
  intros P E raw w Hraw.
  destruct (validate_run P E w) as [w' [_ H]].
  unfold configured_accounts in H. rewrite Hraw in H.
  repeat split.
  - intros Hne. destruct H as [[_ ->] | [Hnil _]]; [reflexivity | contradiction].
  - intros Hnil. destruct H as [[Hne _] | [_ [e ->]]]; [contradiction|].
    exists e. reflexivity.
  - apply length_accounts_of_input.
Qed.

Lemma load_accounts_of_input_witness :
  fst (validateAndLoadAccounts (Scenario.host Scenario.never)
         (Scenario.env_of (Some (js "  a@x.com : tok:1 " ++ nl ++ js "no colon"
                                 ++ nl ++ nl ++ js ":x" ++ nl ++ js "b@x.com:tok2" ++ nl)))
         initial_world)
  = Normal [ {| email := js "a@x.com"; pat := js "tok:1" |};
             {| email := js "b@x.com"; pat := js "tok2" |} ].
Proof.
  apply (proj1 (load_accounts_of_input (Scenario.host Scenario.never)
           (Scenario.env_of (Some (js "  a@x.com : tok:1 " ++ nl ++ js "no colon"
                                   ++ nl ++ nl ++ js ":x" ++ nl ++ js "b@x.com:tok2" ++ nl)))
           _ initial_world eq_refl)).
  vm_compute. discriminate.
Defined.

(** C2, as first stated, fails on an input without any well-formed line:
    loading does not return the empty list of accounts, it throws. *)
Lemma load_accounts_none_well_formed :
  accounts_of_input (js "no colon here") = []
  /\ fst (validateAndLoadAccounts (Scenario.host Scenario.never)
            (Scenario.env_of (Some (js "no colon here"))) initial_world)
     <> Normal (accounts_of_input (js "no colon here")).
Proof. split; [reflexivity|]. vm_compute. discriminate. Qed.
(** ** Reading a profile *)

Lemma userInfo_not_nullish d : nullish (userInfo_of d) = false.
Proof.
  unfold userInfo_of, or_else.
  destruct (truthy (property d (js "user"))) eqn:T; [|reflexivity].
  destruct (property d (js "user")); simpl in *; congruence.
Qed.

Lemma member_property P v key :
  nullish v = false -> member P v key = ret (property v key).
Proof. destruct v; simpl; intros; try discriminate; reflexivity. Qed.

(** ** verifyKoyebAccountStatus *)

(** Run the check up to the answer [Hnet] of the network. *)
Ltac enter_verify Hemail Hpat Hnet :=
  unfold verifyKoyebAccountStatus;
  rewrite (is_empty_false _ Hemail), (is_empty_false _ Hpat); cbn [orb];
  rewrite run_try, run_bind; unfold fetchWithTimeout at 1; rewrite Hnet.

(** Evaluate the decided steps, reading members and converting values. *)
Ltac run_reads :=
  repeat first
    [ rewrite run_try | rewrite run_bind | rewrite run_ret | rewrite run_throw
    | progress cbv iota beta
    | progress cbn [member ToString await] ].

Section Verify.

Variable P : Platform.

Lemma ok_not_auth (r : Response) : ok r = true ->
  ((status r =? 401) || (status r =? 403))%Z = false.
Proof.
  unfold ok. intros H. apply andb_true_iff in H as [H1 H2].
  apply Z.leb_le in H1, H2.
  apply orb_false_iff; split; apply Z.eqb_neq; lia.
Qed.

Lemma ToString_array (xs : list jsval) :
  ToString (JArr xs) = Array_join (js ",") xs.
Proof. reflexivity. Qed.

Lemma join_elements_strings (l : list jsstring) :
  join_elements (map JStr l) = Some l.
Proof.
  induction l as [|x l IH]; [reflexivity|].
  cbn [map join_elements join_element ToString]. now rewrite IH.
Qed.

Lemma Array_join_strings (sep : jsstring) (l : list jsstring) :
  Array_join sep (map JStr l) = Some (join_strings sep l).
Proof. unfold Array_join. now rewrite join_elements_strings. Qed.

(** C1 (as amended): on a 2xx response whose body parses to a JSON value
    other than null, whose returned email is a string (or absent) and whose
    flags are an array (or absent) of values that can be written as text,
    the outcome is decided in this order: a returned email that differs
    from the requested one after lower-casing gives the mismatch failure,
    whatever the flags and the validation say; otherwise flags without
    "ACTIVE" give the inactive failure, which lists the flags; otherwise a
    falsy [email_validated] gives the email-not-validated failure;
    otherwise the outcome is success. *)
Theorem verify_2xx_decision :
  forall (email pat : jsstring) (w : world) (response : Response)
         (profileData : jsval) (returnedEmail : jsstring) (flags : list jsval)
         (joined : jsstring),
    email <> [] -> pat <> [] ->
    network P (fetches w) (koyeb_request pat) = Some (Fulfilled response) ->
    ok response = true ->
    body_json response = Fulfilled profileData ->
    nullish profileData = false ->
    returnedEmail_of profileData = JStr returnedEmail ->
    flags_of profileData = JArr flags ->
    Array_join (js ", ") flags = Some joined ->
    fst (verifyKoyebAccountStatus P email pat w) =
      Normal
        (if negb (eqb (String_toLowerCase P returnedEmail)
                      (String_toLowerCase P email)) then
           {| success := false;
              message := js "验证失败：API返回邮箱(" ++ returnedEmail
                         ++ js ")与提供邮箱不匹配。" |}
         else if negb (Array_includes (js "ACTIVE") flags) then
           {| success := false;
              message := js "原因: 非活跃 (Flags: " ++ joined ++ js ")" |}
         else if negb (truthy (emailValidated_of profileData)) then
           {| success := false; message := js "原因: 邮箱未验证" |}
         else {| success := true; message := js "活跃且邮箱已验证" |}).
Proof.
  intros email pat w response d re fs joined
         Hemail Hpat Hnet Hok Hjson Hd Hre Hfs Hjoin.
  enter_verify Hemail Hpat Hnet.
  rewrite (ok_not_auth _ Hok), Hok. cbn [negb].
  rewrite Hjson. unfold await. rewrite run_bind, run_ret.
  rewrite (member_property P _ _ Hd). rewrite run_bind, run_ret.
  fold (userInfo_of d).
  rewrite !(member_property P _ _ (userInfo_not_nullish d)).
  rewrite run_bind, run_ret. fold (returnedEmail_of d). rewrite Hre.
  rewrite run_bind, run_ret. fold (flags_of d). rewrite Hfs.
  rewrite run_bind, run_ret. fold (emailValidated_of d).
  unfold call_toLowerCase. rewrite run_bind, run_ret.
  destruct (negb (eqb _ _)).
  - unfold template_text. cbn [ToString]. rewrite run_bind, run_ret.
    reflexivity.
  - unfold call_includes. rewrite run_bind, run_ret. unfold decision.
    destruct (Array_includes _ fs); cbn [andb negb].
    + destruct (truthy _); reflexivity.
    + cbn [call_join]. rewrite Hjoin, run_bind, run_ret. reflexivity.
Qed.

(** A guarded request: the continuation and the handler are tame, so the
    only effect is the request, and the value depends on the world only
    through the answer of the network. *)
Lemma fetch_try_run {A} (r : request) (K : Response -> M A)
    (H : js_error -> M A) :
  (forall response, tame (K response)) -> (forall e, normal (H e)) ->
  forall n, exists a, forall w, fetches w = n ->
    try_catch (bind (fetchWithTimeout P r REQUEST_TIMEOUT) K) H w
    = (Normal a, fetched w r).
Proof.
  intros HK HH n.
  destruct (network P n r) as [[response | e] |] eqn:Hnet.
  - destruct (normal_try _ H (HK response) HH) as [a Ha]. exists a.
    intros w <-. specialize (Ha (fetched w r)).
    rewrite run_try in *. rewrite run_bind. unfold fetchWithTimeout.
    rewrite Hnet. exact Ha.
  - destruct (HH e) as [a Ha]. exists a. intros w <-.
    rewrite run_try, run_bind. unfold fetchWithTimeout. rewrite Hnet.
    apply Ha.
  - destruct (HH (AbortError P)) as [a Ha]. exists a. intros w <-.
    rewrite run_try, run_bind. unfold fetchWithTimeout. rewrite Hnet.
    apply Ha.
Qed.

Lemma verify_run :
  forall email pat n, email <> [] -> pat <> [] ->
    exists o, forall w, fetches w = n ->
      verifyKoyebAccountStatus P email pat w
      = (Normal o, fetched w (koyeb_request pat)).
Proof.
  intros email pat n Hemail Hpat. unfold verifyKoyebAccountStatus.
  rewrite (is_empty_false _ Hemail), (is_empty_false _ Hpat). cbn [orb].
  apply fetch_try_run; intros; tame.
Qed.

Lemma verify_returns :
  forall email pat w, exists o,
    fst (verifyKoyebAccountStatus P email pat w) = Normal o.
Proof.
  intros email pat w.
  destruct (is_empty email || is_empty pat) eqn:Hg.
  - unfold verifyKoyebAccountStatus. rewrite Hg. eexists. reflexivity.
  - apply orb_false_iff in Hg as [He Hp].
    destruct (verify_run email pat (fetches w)) as [o Ho].
    + intros ->. discriminate.
    + intros ->. discriminate.
    + exists o. rewrite Ho; reflexivity.
Qed.

(** C9: the check always returns an outcome and never lets an exception
    escape.  In particular a 2xx response whose body does not parse as JSON,
    and a request that fails in the network, are reported by the outer
    handler as a failure with the network-exception reason and the error's
    message; a request aborted by the timer is reported as a failure with
    the timeout reason. *)
Theorem verify_never_throws :
  forall (email pat : jsstring) (w : world),
    (exists o, fst (verifyKoyebAccountStatus P email pat w) = Normal o)
    /\ (forall response e,
          email <> [] -> pat <> [] ->
          network P (fetches w) (koyeb_request pat) = Some (Fulfilled response) ->
          ok response = true ->
          body_json response = Rejected e ->
          err_name e <> js "AbortError" ->
          fst (verifyKoyebAccountStatus P email pat w) =
            Normal {| success := false;
                      message := js "原因: 网络请求异常: " ++ err_message e |})
    /\ (forall e,
          email <> [] -> pat <> [] ->
          network P (fetches w) (koyeb_request pat) = Some (Rejected e) ->
          err_name e <> js "AbortError" ->
          fst (verifyKoyebAccountStatus P email pat w) =
            Normal {| success := false;
                      message := js "原因: 网络请求异常: " ++ err_message e |})
    /\ (email <> [] -> pat <> [] ->
        network P (fetches w) (koyeb_request pat) = None ->
        fst (verifyKoyebAccountStatus P email pat w) =
          Normal {| success := false; message := js "原因: 请求超时" |}).
Proof.
  intros email pat w. split; [apply verify_returns|].
  repeat split.
  - intros response e Hemail Hpat Hnet Hok Hjson Hname.
    enter_verify Hemail Hpat Hnet.
    rewrite (ok_not_auth _ Hok), Hok. cbn [negb].
    rewrite Hjson. unfold await. rewrite run_bind, run_throw.
    apply eqb_neq in Hname. rewrite Hname. reflexivity.
  - intros e Hemail Hpat Hnet Hname.
    enter_verify Hemail Hpat Hnet.
    apply eqb_neq in Hname. rewrite Hname. reflexivity.
  - intros Hemail Hpat Hnet.
    enter_verify Hemail Hpat Hnet.
    reflexivity.
Qed.

(** C4: a 401 or 403 response gives the invalid-or-expired credential
    failure, before any other test on the response.  Any other non-2xx
    response whose body parses to a JSON value other than null gives a
    failure whose reason embeds the status code and a message, the truthy
    [error] member of that value or else the status text, when the message
    can be written as text; a message that cannot is reported as a network
    exception.  When the body does not parse (or parses to null) the raw
    text is asked for but never obtained: [json()] has read the body,
    [text()] is refused, and the outer handler reports that refusal as a
    network exception, without the status code.  Only a response that has
    no body at all reaches its text. *)
Theorem verify_error_status :
  forall (email pat : jsstring) (w : world) (response : Response),
    email <> [] -> pat <> [] ->
    network P (fetches w) (koyeb_request pat) = Some (Fulfilled response) ->
    (status response = 401%Z \/ status response = 403%Z ->
       fst (verifyKoyebAccountStatus P email pat w) =
         Normal {| success := false; message := js "验证失败：PAT 无效或已过期。" |})
    /\ (status response <> 401%Z -> status response <> 403%Z ->
        ok response = false ->
        (forall errorData shown,
           body_json response = Fulfilled errorData ->
           nullish errorData = false ->
           ToString (or_else (property errorData (js "error"))
                             (JStr (statusText response))) = Some shown ->
           fst (verifyKoyebAccountStatus P email pat w) =
             Normal {| success := false;
                       message :=
                         js "原因: API错误 (状态码 "
                         ++ Number_toString (status response) ++ js "): "
                         ++ shown |})
        /\ (forall errorData,
              body_json response = Fulfilled errorData ->
              nullish errorData = false ->
              ToString (or_else (property errorData (js "error"))
                                (JStr (statusText response))) = None ->
              fst (verifyKoyebAccountStatus P email pat w) =
                Normal {| success := false;
                          message := js "原因: 网络请求异常: "
                                     ++ engine_message P NotPrimitive |})
        /\ ((forall errorData, body_json response = Fulfilled errorData ->
                               nullish errorData = true) ->
            has_body response = true ->
            fst (verifyKoyebAccountStatus P email pat w) =
              Normal {| success := false;
                        message := js "原因: 网络请求异常: "
                                   ++ engine_message P BodyUnusable |})
        /\ (forall text,
              (forall errorData, body_json response = Fulfilled errorData ->
                                 nullish errorData = true) ->
              has_body response = false ->
              body_text response = Fulfilled text ->
              fst (verifyKoyebAccountStatus P email pat w) =
                Normal {| success := false;
                          message :=
                            js "原因: API错误 (状态码 "
                            ++ Number_toString (status response) ++ js "): "
                            ++ text |})).
Proof.
  intros email pat w response Hemail Hpat Hnet.
  split.
  - intros Hs. enter_verify Hemail Hpat Hnet.
    assert (Hb : ((status response =? 401) || (status response =? 403))%Z = true).
    { apply orb_true_iff. destruct Hs as [-> | ->]; [left | right]; reflexivity. }
    rewrite Hb. reflexivity.
  - intros H1 H3 Hok.
    assert (Hb : ((status response =? 401) || (status response =? 403))%Z = false).
    { apply orb_false_iff; split; now apply Z.eqb_neq. }
    repeat split; enter_verify Hemail Hpat Hnet; rewrite Hb, Hok; cbn [negb].
    + intros d shown Hjson Hd Hshown. rewrite run_bind, run_try, run_bind, Hjson.
      unfold await at 1. rewrite run_ret, run_bind.
      rewrite (member_property P _ _ Hd), run_ret, run_ret.
      unfold template_text. rewrite Hshown, run_bind, run_ret. reflexivity.
    + intros d Hjson Hd Hshown. rewrite run_bind, run_try, run_bind, Hjson.
      unfold await at 1. rewrite run_ret, run_bind.
      rewrite (member_property P _ _ Hd), run_ret, run_ret.
      unfold template_text. rewrite Hshown, run_bind, run_throw. reflexivity.
    + intros Hjson Hbody. unfold text_after_json. rewrite Hbody.
      destruct (body_json response) as [d | e0].
      * specialize (Hjson d eq_refl).
        destruct d; try discriminate; run_reads; reflexivity.
      * run_reads. reflexivity.
    + intros text Hjson Hbody Htext. unfold text_after_json, template_text.
      rewrite Hbody, Htext.
      destruct (body_json response) as [d | e0].
      * specialize (Hjson d eq_refl).
        destruct d; try discriminate; run_reads; reflexivity.
      * run_reads. reflexivity.
Qed.

End Verify.

Lemma verify_2xx_decision_witness :
  fst (verifyKoyebAccountStatus
         (Scenario.host (Scenario.always (Scenario.ok_response Scenario.active_profile)))
         (js "a@x.com") (js "tok1") initial_world)
  = Normal {| success := true; message := js "活跃且邮箱已验证" |}.
Proof.
  apply (verify_2xx_decision
           (Scenario.host (Scenario.always (Scenario.ok_response Scenario.active_profile)))
           (js "a@x.com") (js "tok1") initial_world
           (Scenario.ok_response Scenario.active_profile) Scenario.active_profile
           (js "A@x.com") [JStr (js "ACTIVE")] (js "ACTIVE"));
    solve [reflexivity | vm_compute; discriminate].
Defined.

(** C1, as first stated, fails on 2xx answers that do not have the shape
    of a profile.  With the requested identity [a@x.com]: a body that is
    not JSON, a body that is [null], a returned email that is a number,
    flags that are one text without the marker, and flags that hold an
    object with a member [toString] all end in the network-exception
    failure of the outer handler, which is none of the reasons of the
    decision. *)
Lemma verify_2xx_decision_untyped :
  (exists o,
     fst (verifyKoyebAccountStatus
            (Scenario.host (Scenario.always Scenario.html_200))
            (js "a@x.com") (js "tok1") initial_world) = Normal o
     /\ message o
        = js "原因: 网络请求异常: " ++ err_message Scenario.SyntaxError
     /\ ~ decision_reason (message o))
  /\ (exists o,
        fst (verifyKoyebAccountStatus
               (Scenario.host (Scenario.always Cases.null_body))
               (js "a@x.com") (js "tok1") initial_world) = Normal o
        /\ message o
           = js "原因: 网络请求异常: Cannot read properties of null (reading 'user')"
        /\ ~ decision_reason (message o))
  /\ (exists o,
        fst (verifyKoyebAccountStatus
               (Scenario.host (Scenario.always
                  (Scenario.ok_response Cases.numeric_email_profile)))
               (js "a@x.com") (js "tok1") initial_world) = Normal o
        /\ message o
           = js "原因: 网络请求异常: returnedEmail.toLowerCase is not a function"
        /\ ~ decision_reason (message o))
  /\ (exists o,
        fst (verifyKoyebAccountStatus
               (Scenario.host (Scenario.always
                  (Scenario.ok_response Cases.suspended_text_profile)))
               (js "a@x.com") (js "tok1") initial_world) = Normal o
        /\ message o = js "原因: 网络请求异常: flags.join is not a function"
        /\ ~ decision_reason (message o))
  /\ (exists o,
        fst (verifyKoyebAccountStatus
               (Scenario.host (Scenario.always
                  (Scenario.ok_response Cases.object_flag_profile)))
               (js "a@x.com") (js "tok1") initial_world) = Normal o
        /\ message o
           = js "原因: 网络请求异常: Cannot convert object to primitive value"
        /\ ~ decision_reason (message o)).
Proof.
  repeat split.
  - exists {| success := false;
              message := js "原因: 网络请求异常: " ++ err_message Scenario.SyntaxError |}.
    split; [vm_compute; reflexivity|]. split; [reflexivity|].
    intros [H | [[x H] | [[x H] | H]]]; vm_compute in H; discriminate H.
  - exists {| success := false;
              message := js "原因: 网络请求异常: Cannot read properties of null (reading 'user')" |}.
    split; [vm_compute; reflexivity|]. split; [reflexivity|].
    intros [H | [[x H] | [[x H] | H]]]; vm_compute in H; discriminate H.
  - exists {| success := false;
              message := js "原因: 网络请求异常: returnedEmail.toLowerCase is not a function" |}.
    split; [vm_compute; reflexivity|]. split; [reflexivity|].
    intros [H | [[x H] | [[x H] | H]]]; vm_compute in H; discriminate H.
  - exists {| success := false;
              message := js "原因: 网络请求异常: flags.join is not a function" |}.
    split; [vm_compute; reflexivity|]. split; [reflexivity|].
    intros [H | [[x H] | [[x H] | H]]]; vm_compute in H; discriminate H.
  - exists {| success := false;
              message := js "原因: 网络请求异常: Cannot convert object to primitive value" |}.
    split; [vm_compute; reflexivity|]. split; [reflexivity|].
    intros [H | [[x H] | [[x H] | H]]]; vm_compute in H; discriminate H.
Qed.

Lemma verify_never_throws_witness :
  fst (verifyKoyebAccountStatus (Scenario.host (Scenario.always Scenario.html_200))
         (js "a@x.com") (js "tok1") initial_world)
  = Normal {| success := false;
              message := js "原因: 网络请求异常: "
                         ++ err_message Scenario.SyntaxError |}
  /\ fst (verifyKoyebAccountStatus (Scenario.host Scenario.never)
            (js "a@x.com") (js "tok1") initial_world)
     = Normal {| success := false; message := js "原因: 请求超时" |}.
Proof.
  split.
  - apply (proj1 (proj2 (verify_never_throws
             (Scenario.host (Scenario.always Scenario.html_200))
             (js "a@x.com") (js "tok1") initial_world))
             Scenario.html_200 Scenario.SyntaxError);
      solve [reflexivity | vm_compute; discriminate].
  - apply (proj2 (proj2 (proj2 (verify_never_throws
             (Scenario.host Scenario.never)
             (js "a@x.com") (js "tok1") initial_world))));
      solve [reflexivity | vm_compute; discriminate].
Defined.

Lemma verify_error_status_witness :
  fst (verifyKoyebAccountStatus (Scenario.host (Scenario.always Scenario.forbidden))
         (js "a@x.com") (js "tok1") initial_world)
  = Normal {| success := false; message := js "验证失败：PAT 无效或已过期。" |}
  /\ fst (verifyKoyebAccountStatus
            (Scenario.host (Scenario.always
               (Scenario.json_500 (JObj [(js "error", JStr (js "overloaded"))]))))
            (js "a@x.com") (js "tok1") initial_world)
     = Normal {| success := false;
                 message := js "原因: API错误 (状态码 " ++ Number_toString 500
                            ++ js "): " ++ js "overloaded" |}
  /\ fst (verifyKoyebAccountStatus
            (Scenario.host (Scenario.always Scenario.server_error))
            (js "a@x.com") (js "tok1") initial_world)
     = Normal {| success := false;
                 message := js "原因: 网络请求异常: "
                            ++ engine_message
                                 (Scenario.host (Scenario.always Scenario.server_error))
                                 BodyUnusable |}
  /\ fst (verifyKoyebAccountStatus
            (Scenario.host (Scenario.always Scenario.not_modified))
            (js "a@x.com") (js "tok1") initial_world)
     = Normal {| success := false;
                 message := js "原因: API错误 (状态码 " ++ Number_toString 304
                            ++ js "): " |}.
Proof.
  split; [|split; [|split]].
  - apply (proj1 (verify_error_status
             (Scenario.host (Scenario.always Scenario.forbidden))
             (js "a@x.com") (js "tok1") initial_world Scenario.forbidden
             ltac:(vm_compute; discriminate) ltac:(vm_compute; discriminate)
             eq_refl)).
    right. reflexivity.
  - apply (proj1 (proj2 (verify_error_status
             (Scenario.host (Scenario.always
                (Scenario.json_500 (JObj [(js "error", JStr (js "overloaded"))]))))
             (js "a@x.com") (js "tok1") initial_world
             (Scenario.json_500 (JObj [(js "error", JStr (js "overloaded"))]))
             ltac:(vm_compute; discriminate) ltac:(vm_compute; discriminate)
             eq_refl)
             ltac:(discriminate) ltac:(discriminate) eq_refl)
             (JObj [(js "error", JStr (js "overloaded"))]) (js "overloaded")
             eq_refl eq_refl).
    vm_compute. reflexivity.
  - apply (proj1 (proj2 (proj2 (proj2 (verify_error_status
             (Scenario.host (Scenario.always Scenario.server_error))
             (js "a@x.com") (js "tok1") initial_world Scenario.server_error
             ltac:(vm_compute; discriminate) ltac:(vm_compute; discriminate)
             eq_refl)
             ltac:(discriminate) ltac:(discriminate) eq_refl)))).
    + intros d H. discriminate H.
    + reflexivity.
  - refine (eq_trans
              (proj2 (proj2 (proj2 (proj2 (verify_error_status
                 (Scenario.host (Scenario.always Scenario.not_modified))
                 (js "a@x.com") (js "tok1") initial_world Scenario.not_modified
                 ltac:(vm_compute; discriminate) ltac:(vm_compute; discriminate)
                 eq_refl)
                 ltac:(discriminate) ltac:(discriminate) eq_refl))) []
                 ltac:(intros d H; discriminate H) eq_refl eq_refl) _).
    now rewrite !app_nil_r.
Defined.

(** On a 500 whose body is a page of text, the reason carries neither
    the status code nor the text of the body: it is the network-exception
    reason of the outer handler, with the refusal of the second read. *)
Lemma verify_error_status_unreadable_text :
  status Scenario.server_error = 500%Z
  /\ ok Scenario.server_error = false
  /\ body_text Scenario.server_error = Fulfilled (js "<h1>upstream down</h1>")
  /\ exists o,
       fst (verifyKoyebAccountStatus
              (Scenario.host (Scenario.always Scenario.server_error))
              (js "a@x.com") (js "tok1") initial_world) = Normal o
       /\ message o = js "原因: 网络请求异常: Body is unusable: Body has already been read"
       /\ ~ (exists m, message o
                       = js "原因: API错误 (状态码 " ++ Number_toString 500
                         ++ js "): " ++ m).
Proof.
  split; [reflexivity|]. split; [reflexivity|]. split; [reflexivity|].
  exists {| success := false;
            message := js "原因: 网络请求异常: Body is unusable: Body has already been read" |}.
  split; [vm_compute; reflexivity|]. split; [reflexivity|].
  intros [m Hm]. vm_compute in Hm. discriminate Hm.
Qed.

(** ** The decision chain on a 2xx profile *)

(** C10: in the 2xx decision chain the final [else] is never taken: for
    every value of [isActive] (the result of [flags.includes("ACTIVE")] on
    any flags collection) and every value of [email_validated], the chain
    takes the success branch exactly when the account is active and the
    value is truthy, the inactive branch exactly when it is not active, and
    the email-not-validated branch in the remaining case. *)
Theorem decision_unknown_unreachable :
  forall (isActive : bool) (emailValidated : jsval),
    decision isActive emailValidated <> BrUnknown
    /\ (decision isActive emailValidated = BrSuccess
        <-> isActive = true /\ truthy emailValidated = true)
    /\ (decision isActive emailValidated = BrInactive <-> isActive = false)
    /\ (decision isActive emailValidated = BrEmailNotValidated
        <-> isActive = true /\ truthy emailValidated = false).
Proof.
  intros isActive ev. unfold decision.
  destruct isActive, (truthy ev); simpl;
    repeat split; intros; try discriminate; try tauto;
    match goal with H : _ /\ _ |- _ => destruct H; discriminate end.
Qed.

(** ** sendTgMessage *)

(** Close a case in which the delivery is logged as failed. *)
Ltac send_failure :=
  exists JNull; eexists; eexists;
  split; [reflexivity|];
  split; [reflexivity|];
  split; [cbn [trace logged]; rewrite <- ?app_assoc; reflexivity|];
  split; [reflexivity|];
  intros _; split; [reflexivity | discriminate].

Section Notify.

Variable P : Platform.
Variable E : Env.

Lemma unset_empty v : is_empty (env_text v) = unset v.
Proof. destruct v as [[|c t]|]; reflexivity. Qed.

(** Without credentials nothing is sent: one warning, then [null]. *)
Lemma send_skips message w :
  unset (TG_BOT_TOKEN E) || unset (TG_CHAT_ID E) = true ->
  exists w', sendTgMessage P E message w = (Normal JNull, w')
    /\ fetches w' = fetches w
    /\ exists line, trace w' = trace w ++ [Console console_warn line].
Proof.
  intros H. unfold sendTgMessage. fold (env_text (TG_BOT_TOKEN E)).
  fold (env_text (TG_CHAT_ID E)). rewrite !unset_empty, H.
  eexists. split; [reflexivity|]. split; [reflexivity|].
  eexists. reflexivity.
Qed.

(** With credentials one request is issued; whatever comes back, the
    function returns, and a failed delivery is logged and yields [null]. *)
Lemma send_delivers message w :
  unset (TG_BOT_TOKEN E) || unset (TG_CHAT_ID E) = false ->
  let r := telegram_request P (env_text (TG_BOT_TOKEN E))
             (env_text (TG_CHAT_ID E)) message in
  exists v w' logs,
    sendTgMessage P E message w = (Normal v, w')
    /\ fetches w' = S (fetches w)
    /\ trace w' = trace w ++ Fetch r REQUEST_TIMEOUT :: logs
    /\ forallb is_error_log logs = true
    /\ (delivery_failed (network P (fetches w) r) = true ->
        v = JNull /\ logs <> []).
Proof.
  intros H r. unfold sendTgMessage. fold (env_text (TG_BOT_TOKEN E)).
  fold (env_text (TG_CHAT_ID E)). rewrite !unset_empty, H. fold r.
  rewrite run_try, run_bind. unfold fetchWithTimeout.
  destruct (network P (fetches w) r) as [[response | e] |]; cbn [delivery_failed].
  - destruct (ok response); cbn [negb].
    + destruct (body_json response) as [v | e]; cbn [await].
      * rewrite run_ret. exists v. eexists. exists [].
        repeat split; try reflexivity; discriminate.
      * rewrite run_throw.
        destruct (eqb (err_name e) (js "AbortError")); send_failure.
    + destruct (body_text response) as [t | e]; cbn [await].
      * send_failure.
      * rewrite run_bind, run_throw.
        destruct (eqb (err_name e) (js "AbortError")); send_failure.
  - destruct (eqb (err_name e) (js "AbortError")); send_failure.
  - send_failure.
Qed.

(** The notification always returns: it neither throws nor ends the
    process. *)
Lemma send_returns message w :
  exists v w', sendTgMessage P E message w = (Normal v, w').
Proof.
  destruct (unset (TG_BOT_TOKEN E) || unset (TG_CHAT_ID E)) eqn:H.
  - destruct (send_skips message w H) as [w' [Hrun _]]. now exists JNull, w'.
  - destruct (send_delivers message w H) as [v [w' [logs [Hrun _]]]].
    now exists v, w'.
Qed.

End Notify.
(** ** main *)

Lemma logger_info_eq P msg w :
  logger_info P msg w = (Normal tt, logged P console_log (js " - INFO - " ++ msg) w).
Proof. reflexivity. Qed.

Lemma logger_warn_eq P msg w :
  logger_warn P msg w = (Normal tt, logged P console_warn (js " - WARN - " ++ msg) w).
Proof. reflexivity. Qed.

Lemma logger_error_eq P msg w :
  logger_error P msg w = (Normal tt, logged P console_error (js " - ERROR - " ++ msg) w).
Proof. reflexivity. Qed.

Section Loop.

Variable P : Platform.
Variable verify : jsstring -> jsstring -> M outcome.

(** One iteration on an account that reaches its check. *)
Lemma loop_step_complete totalAccounts a rest index results successCount w :
  complete a = true ->
  verify_loop P verify totalAccounts (a :: rest) index results successCount w
  = match verify (clean_email a) (clean_pat a)
            (before_check P totalAccounts index a w) with
    | (Normal o, w') =>
      verify_loop P verify totalAccounts rest (index + 1)
        (results ++ [line_checked (clean_email a) o])
        (if success o then successCount + 1 else successCount)%Z w'
    | (Throw e, w') =>
      verify_loop P verify totalAccounts rest (index + 1)
        (results ++ [line_exception (clean_email a) e]) successCount
        (after_exception P a e w')
    | (Exit code, w') => (Exit code, w')
    end.
Proof.
  intros Hc. unfold complete in Hc. apply negb_true_iff in Hc.
  cbn [verify_loop]. fold (clean_email a). fold (clean_pat a). rewrite Hc.
  rewrite run_bind, logger_info_eq, run_bind.
  change (sleep 10000 (logged P console_log
            (js " - INFO - " ++ js "🚀 正在处理第 " ++ Number_toString (index + 1)
             ++ js "/" ++ Number_toString totalAccounts ++ js " 个账户: "
             ++ clean_email a) w))
    with (@Normal unit tt, before_check P totalAccounts index a w).
  cbv iota beta. rewrite run_bind, run_try, run_bind.
  destruct (verify (clean_email a) (clean_pat a)
              (before_check P totalAccounts index a w)) as [[o | e | code] w'].
  - destruct (success o); reflexivity.
  - rewrite run_bind, logger_error_eq. reflexivity.
  - reflexivity.
Qed.

(** One iteration on an account that lacks its identity or its secret. *)
Lemma loop_step_incomplete totalAccounts a rest index results successCount w :
  complete a = false ->
  verify_loop P verify totalAccounts (a :: rest) index results successCount w
  = verify_loop P verify totalAccounts rest (index + 1)
      (results ++ [line_incomplete]) successCount
      (logged P console_warn
         (js " - WARN - " ++ js "⚠️ 第 " ++ Number_toString (index + 1) ++ js "/"
          ++ Number_toString totalAccounts ++ js " 个账户信息不完整，已跳过") w).
Proof.
  intros Hc. unfold complete in Hc. apply negb_false_iff in Hc.
  cbn [verify_loop]. fold (clean_email a). fold (clean_pat a). rewrite Hc.
  rewrite run_bind, logger_warn_eq. reflexivity.
Qed.

Hypothesis verify_never_exits : never_exits verify.

(** The loop runs to its end and records one line for each account. *)
Lemma loop_completes totalAccounts accounts :
  forall index results successCount w,
  exists lines successCount' w',
    verify_loop P verify totalAccounts accounts index results successCount w
    = (Normal (results ++ lines, successCount'), w')
    /\ List.length lines = List.length accounts.
Proof.
  induction accounts as [|a rest IH]; intros index results sc w.
  - exists [], sc, w. rewrite app_nil_r. split; reflexivity.
  - destruct (complete a) eqn:Hc.
    + rewrite (loop_step_complete _ _ _ _ _ _ _ Hc).
      pose proof (verify_never_exits (clean_email a) (clean_pat a)
                    (before_check P totalAccounts index a w)) as Hx.
      destruct (verify (clean_email a) (clean_pat a)
                  (before_check P totalAccounts index a w)) as [[o | e | code] w1].
      * destruct (IH (index + 1)%Z (results ++ [line_checked (clean_email a) o])
                    (if success o then sc + 1 else sc)%Z w1)
          as [lines [sc' [w' [Hrun Hlen]]]].
        exists (line_checked (clean_email a) o :: lines), sc', w'.
        rewrite Hrun, <- app_assoc. split; [reflexivity | simpl; now rewrite Hlen].
      * destruct (IH (index + 1)%Z (results ++ [line_exception (clean_email a) e])
                    sc (after_exception P a e w1))
          as [lines [sc' [w' [Hrun Hlen]]]].
        exists (line_exception (clean_email a) e :: lines), sc', w'.
        rewrite Hrun, <- app_assoc. split; [reflexivity | simpl; now rewrite Hlen].
      * now contradiction (Hx code).
    + rewrite (loop_step_incomplete _ _ _ _ _ _ _ Hc).
      destruct (IH (index + 1)%Z (results ++ [line_incomplete]) sc
                  (logged P console_warn
                     (js " - WARN - " ++ js "⚠️ 第 " ++ Number_toString (index + 1)
                      ++ js "/" ++ Number_toString totalAccounts
                      ++ js " 个账户信息不完整，已跳过") w))
        as [lines [sc' [w' [Hrun Hlen]]]].
      exists (line_incomplete :: lines), sc', w'.
      rewrite Hrun, <- app_assoc. split; [reflexivity | simpl; now rewrite Hlen].
Qed.

End Loop.

(** C5: when the check of an account throws, the exception is caught in
    the iteration of that account: a failure line carrying the exception's
    message is recorded, the loop goes on with the remaining accounts, and
    it runs to its end with one line for each of them. *)
Theorem loop_survives_exception :
  forall (P : Platform) (verify : jsstring -> jsstring -> M outcome)
         (totalAccounts : Z) (a : Account) (rest : list Account) (index : Z)
         (results : list jsstring) (successCount : Z) (w w' : world)
         (error : js_error),
    never_exits verify ->
    complete a = true ->
    verify (clean_email a) (clean_pat a) (before_check P totalAccounts index a w)
    = (Throw error, w') ->
    let line := js "账户: `" ++ clean_email a ++ js "`" ++ nl
                ++ js "状态: ❌ 验证失败" ++ nl
                ++ js "  执行时发生未知异常 - " ++ err_message error ++ nl in
    verify_loop P verify totalAccounts (a :: rest) index results successCount w
    = verify_loop P verify totalAccounts rest (index + 1) (results ++ [line])
        successCount (after_exception P a error w')
    /\ exists lines successCount' w'',
         verify_loop P verify totalAccounts (a :: rest) index results successCount w
         = (Normal (results ++ line :: lines, successCount'), w'')
         /\ List.length lines = List.length rest.
Proof.
  intros P verify total a rest index results sc w w' error Hx Hc Hthrow line.
  assert (Hstep :
    verify_loop P verify total (a :: rest) index results sc w
    = verify_loop P verify total rest (index + 1) (results ++ [line]) sc
        (after_exception P a error w')).
  { rewrite (loop_step_complete P verify _ _ _ _ _ _ _ Hc), Hthrow. reflexivity. }
  split; [exact Hstep|].
  destruct (loop_completes P verify Hx total rest (index + 1)%Z (results ++ [line])
              sc (after_exception P a error w'))
    as [lines [sc' [w'' [Hrun Hlen]]]].
  exists lines, sc', w''. rewrite Hstep, Hrun, <- app_assoc.
  split; [reflexivity | exact Hlen].
Qed.

Lemma loop_survives_exception_witness :
  exists lines successCount' w'',
    verify_loop (Scenario.host Scenario.never) Scenario.failing_check 2
      [Scenario.alice; Scenario.bob] 0 [] 0 initial_world
    = (Normal ([] ++ (js "账户: `" ++ js "a@x.com" ++ js "`" ++ nl
                      ++ js "状态: ❌ 验证失败" ++ nl
                      ++ js "  执行时发生未知异常 - " ++ js "boom" ++ nl) :: lines,
               successCount'), w'')
    /\ List.length lines = 1%nat.
Proof.
  exact (proj2 (loop_survives_exception (Scenario.host Scenario.never)
                  Scenario.failing_check 2 Scenario.alice [Scenario.bob] 0 [] 0
                  initial_world _ (new_Error (js "boom"))
                  ltac:(intros ? ? ? ?; discriminate) eq_refl eq_refl)).
Defined.

(** *** Timed events *)

Lemma timed_app t1 t2 : timed (t1 ++ t2) = timed t1 ++ timed t2.
Proof. apply filter_app. Qed.

Lemma timed_console logs : forallb is_console logs = true -> timed logs = [].
Proof.
  induction logs as [|e logs IH]; [reflexivity|]. simpl.
  intros H. apply andb_true_iff in H as [He Hl]. rewrite He. simpl. auto.
Qed.

Lemma error_logs_console logs :
  forallb is_error_log logs = true -> forallb is_console logs = true.
Proof.
  induction logs as [|e logs IH]; [reflexivity|]. simpl.
  intros H. apply andb_true_iff in H as [He Hl]. rewrite (IH Hl), andb_true_r.
  destruct e as [[] ?| |]; try discriminate; reflexivity.
Qed.

Lemma timed_quiet w w' : quiet w w' -> timed (trace w') = timed (trace w).
Proof.
  intros [_ [logs [-> Hl]]].
  now rewrite timed_app, (timed_console _ Hl), app_nil_r.
Qed.

Lemma timed_logged P s text w : timed (trace (logged P s text w)) = timed (trace w).
Proof. unfold logged. simpl. rewrite timed_app. simpl. apply app_nil_r. Qed.

Lemma complete_nonempty a :
  complete a = true -> clean_email a <> [] /\ clean_pat a <> [].
Proof.
  unfold complete. intros H. apply negb_true_iff, orb_false_iff in H as [H1 H2].
  split; intros Heq; rewrite Heq in *; discriminate.
Qed.

Lemma count_success (b : bool) (n m : Z) :
  ((if b then n + 1 else n) + m = n + ((if b then 1 else 0) + m))%Z.
Proof. destruct b; lia. Qed.

Section Run.

Variable P : Platform.

Lemma verify_no_exit : never_exits (verifyKoyebAccountStatus P).
Proof.
  intros email pat w code H.
  destruct (verify_returns P email pat w) as [o Ho]. congruence.
Qed.

(** The check of a complete account, from any world with [n] requests
    behind it. *)
Lemma check_run a w :
  complete a = true ->
  verifyKoyebAccountStatus P (clean_email a) (clean_pat a) w
  = (Normal (outcome_at P (fetches w) a), fetched w (koyeb_request (clean_pat a))).
Proof.
  intros Hc. destruct (complete_nonempty a Hc) as [He Hp].
  destruct (verify_run P (clean_email a) (clean_pat a) (fetches w) He Hp)
    as [o Ho].
  unfold outcome_at. rewrite (Ho {| ticks := 0; fetches := fetches w; trace := [] |})
    by reflexivity.
  now apply Ho.
Qed.

(** The loop on the script's own check: its lines, its count of
    successes, its requests and its timed events. *)
Lemma loop_run totalAccounts accounts :
  forall index results successCount w,
  exists w',
    verify_loop P (verifyKoyebAccountStatus P) totalAccounts accounts index
      results successCount w
    = (Normal (results ++ report_lines P (fetches w) accounts,
               (successCount + successes P (fetches w) accounts)%Z), w')
    /\ timed (trace w') = timed (trace w) ++ checks accounts.
Proof.
  induction accounts as [|a rest IH]; intros index results sc w.
  - exists w. simpl. rewrite !app_nil_r, Z.add_0_r. split; reflexivity.
  - destruct (complete a) eqn:Hc.
    + rewrite (loop_step_complete _ _ _ _ _ _ _ _ _ Hc), (check_run _ _ Hc).
      destruct (IH (index + 1)%Z
                  (results ++ [line_checked (clean_email a)
                                 (outcome_at P (fetches (before_check P totalAccounts index a w)) a)])
                  (if success (outcome_at P (fetches (before_check P totalAccounts index a w)) a)
                   then sc + 1 else sc)%Z
                  (fetched (before_check P totalAccounts index a w)
                     (koyeb_request (clean_pat a))))
        as [w' [Hrun Ht]].
      exists w'. rewrite Hrun. cbn [report_lines successes]. rewrite Hc.
      split.
      * cbn [fetched before_check slept logged fetches].
        rewrite <- app_assoc, count_success. reflexivity.
      * rewrite Ht. unfold checks. cbn [flat_map]. rewrite Hc.
        cbn [fetched before_check slept logged trace].
        rewrite !timed_app. simpl. rewrite app_nil_r, <- !app_assoc. reflexivity.
    + rewrite (loop_step_incomplete _ _ _ _ _ _ _ _ _ Hc).
      destruct (IH (index + 1)%Z (results ++ [line_incomplete]) sc
                  (logged P console_warn
                     (js " - WARN - " ++ js "⚠️ 第 " ++ Number_toString (index + 1)
                      ++ js "/" ++ Number_toString totalAccounts
                      ++ js " 个账户信息不完整，已跳过") w))
        as [w' [Hrun Ht]].
      exists w'. rewrite Hrun. cbn [report_lines successes]. rewrite Hc.
      split.
      * cbn [logged fetches]. now rewrite <- app_assoc.
      * rewrite Ht, timed_logged. unfold checks. cbn [flat_map]. now rewrite Hc.
Qed.

End Run.

(** *** The run of the script *)

Section Script_run.

Variable P : Platform.
Variable E : Env.

Lemma send_run message w :
  exists v w',
    sendTgMessage P E message w = (Normal v, w')
    /\ timed (trace w') = timed (trace w) ++ notification P E message
    /\ exists new, trace w' = trace w ++ new.
Proof.
  unfold notification.
  destruct (unset (TG_BOT_TOKEN E) || unset (TG_CHAT_ID E)) eqn:H.
  - destruct (send_skips P E message w H) as [w' [Hrun [_ [line Ht]]]].
    exists JNull, w'. split; [exact Hrun|]. split.
    + rewrite Ht, timed_app. reflexivity.
    + now exists [Console console_warn line].
  - destruct (send_delivers P E message w H)
      as [v [w' [logs [Hrun [_ [Ht [Hl _]]]]]]].
    exists v, w'. split; [exact Hrun|]. split.
    + rewrite Ht, timed_app. simpl.
      now rewrite (timed_console _ (error_logs_console _ Hl)).
    + eexists. exact Ht.
Qed.

Lemma or_str_nil s : or_str s [] = s.
Proof. destruct s; reflexivity. Qed.

(** All configured accounts reach their check, on the identity and the
    secret that were loaded. *)
Lemma configured_complete :
  Forall (fun a => complete a = true /\ clean_email a = email a
                   /\ clean_pat a = pat a) (configured_accounts E).
Proof.
  unfold configured_accounts. destruct (KOYEB_LOGIN E) as [raw|]; [|constructor].
  unfold accounts_of_input. induction (split 10%N raw) as [|l lines IH].
  - constructor.
  - simpl. apply Forall_app. split; [|exact IH].
    unfold account_of_line. destruct (cut 58%N l) as [[a b]|]; [|constructor].
    destruct (is_empty (trim a)) eqn:Ha; [constructor|].
    destruct (is_empty (trim b)) eqn:Hb; [constructor|].
    simpl. constructor; [|constructor].
    unfold complete, clean_email, clean_pat. cbn [email pat].
    rewrite !or_str_nil, trim_idem, Ha, Hb. repeat split; reflexivity.
Qed.

Lemma checks_configured :
  checks (configured_accounts E)
  = flat_map (fun a => [Sleep 10000; Fetch (koyeb_request (pat a)) REQUEST_TIMEOUT])
      (configured_accounts E).
Proof.
  unfold checks. induction configured_complete as [|a accs [Hc [_ Hp]] _ IH].
  - reflexivity.
  - simpl. now rewrite Hc, Hp, IH.
Qed.

End Script_run.

Section Main_run.

Variable P : Platform.
Variable E : Env.

(** The run when no account is configured: the load throws, the failure
    is notified and the process exits with status 1. *)
Lemma main_aborts w :
  configured_accounts E = [] ->
  exists e w',
    main P E w = (Exit 1, w')
    /\ timed (trace w') = timed (trace w) ++ notification P E (init_failure e).
Proof.
  intros Hnil. unfold main, main_with. rewrite run_try, run_bind.
  destruct (validate_run P E w) as [w1 [Hq [[Hne _] | [_ [e ->]]]]];
    [contradiction|].
  exists e. unfold init_failure. cbv zeta.
  rewrite run_bind, logger_error_eq, run_bind.
  destruct (send_run P E (js "❌ 程序初始化失败: " ++ err_message e)
              (logged P console_error
                 (js " - ERROR - " ++ js "❌ 程序初始化失败: " ++ err_message e) w1))
    as [v [w2 [-> [Ht _]]]].
  exists w2. split; [reflexivity|].
  now rewrite Ht, timed_logged, (timed_quiet _ _ Hq).
Qed.

(** The run over configured accounts. *)
Lemma main_reports w :
  configured_accounts E <> [] ->
  exists currentTime stamped w',
    main P E w
    = (if (successes P (fetches w) (configured_accounts E) =? 0)%Z
       then Exit 1 else Normal tt, w')
    /\ timed (trace w')
       = timed (trace w) ++ checks (configured_accounts E)
         ++ notification P E
              (render currentTime (Z.of_nat (List.length (configured_accounts E)))
                 (successes P (fetches w) (configured_accounts E))
                 (report_lines P (fetches w) (configured_accounts E)))
    /\ In (Console console_log
             (stamped ++ js " - INFO - " ++ js "📊 --- 报告预览 ---" ++ nl
              ++ render currentTime (Z.of_nat (List.length (configured_accounts E)))
                   (successes P (fetches w) (configured_accounts E))
                   (report_lines P (fetches w) (configured_accounts E))))
          (trace w').
Proof.
  intros Hne. unfold main, main_with.
  rewrite run_try, run_bind.
  destruct (validate_run P E w) as [w1 [Hq [[_ ->] | [Hnil _]]]];
    [|contradiction].
  set (accounts := configured_accounts E) in *.
  set (total := Z.of_nat (List.length accounts)).
  rewrite run_bind.
  change (getBeijingTime P w1)
    with (Normal (stamp P w1),
          {| ticks := S (ticks w1); fetches := fetches w1; trace := trace w1 |}).
  cbv iota beta zeta. rewrite run_bind.
  destruct (loop_run P total accounts 0%Z [] 0%Z
              {| ticks := S (ticks w1); fetches := fetches w1; trace := trace w1 |})
    as [w2 [-> Ht2]].
  cbn [fetches trace] in *. destruct Hq as [Hf Hlogs].
  rewrite Hf, app_nil_l, Z.add_0_l. cbn [fst snd].
  set (count := successes P (fetches w) accounts).
  set (report := render (stamp P w1) total count
                   (report_lines P (fetches w) accounts)).
  rewrite run_bind, logger_info_eq, run_bind.
  destruct (send_run P E report
              (logged P console_log
                 (js " - INFO - " ++ js "📊 --- 报告预览 ---" ++ nl ++ report) w2))
    as [v [w3 [-> [Ht3 [new Hnew]]]]].
  exists (stamp P w1), (stamp P w2).
  assert (Htotal : (0 <? total)%Z = true).
  { apply Z.ltb_lt. unfold total. destruct accounts; [congruence | simpl; lia]. }
  rewrite run_bind, logger_info_eq, Htotal, andb_true_r.
  assert (Htimed : timed (trace w3)
                   = timed (trace w) ++ checks accounts ++ notification P E report).
  { rewrite Ht3, timed_logged, Ht2.
    destruct Hlogs as [logs [-> Hl]].
    now rewrite timed_app, (timed_console _ Hl), app_nil_r, <- app_assoc. }
  assert (Hin : In (Console console_log
                      (stamp P w2 ++ js " - INFO - " ++ js "📊 --- 报告预览 ---"
                       ++ nl ++ report)) (trace w3)).
  { rewrite Hnew. cbn [logged trace].
    apply in_or_app. left. apply in_or_app. right. now left. }
  destruct (count =? 0)%Z.
  - rewrite run_bind, logger_error_eq. eexists. split; [reflexivity|]. split.
    + now rewrite !timed_logged.
    + cbn [logged trace]. apply in_or_app. left. apply in_or_app. now left.
  - eexists. split; [reflexivity|]. split.
    + now rewrite timed_logged.
    + cbn [logged trace]. apply in_or_app. now left.
Qed.

End Main_run.

(** *** The exit status *)

Lemma telegram_not_koyeb P botToken chatId message :
  req_url (telegram_request P botToken chatId message) <> KOYEB_PROFILE_URL.
Proof.
  unfold telegram_request, KOYEB_PROFILE_URL. cbn [req_url]. intros H.
  apply (f_equal (firstn 12)) in H. vm_compute in H. discriminate H.
Qed.

Lemma outside_checks_timed t :
  Forall outside_checks (timed t) -> Forall outside_checks t.
Proof.
  induction t as [|e t IH]; [constructor|].
  unfold timed. simpl. destruct e as [s line | ms | r timeout]; simpl; intros H.
  - constructor; [exact I | apply IH, H].
  - inversion H; subst. constructor; [assumption | now apply IH].
  - inversion H; subst. constructor; [assumption | now apply IH].
Qed.

Lemma outside_checks_notification P E message :
  Forall outside_checks (notification P E message).
Proof.
  unfold notification. destruct (_ || _); repeat constructor.
  apply telegram_not_koyeb.
Qed.

Lemma exit_status_run P E :
  fst (run P E)
  = match configured_accounts E with
    | [] => 1%Z
    | _ :: _ => if (successes P 0 (configured_accounts E) =? 0)%Z then 1%Z else 0%Z
    end.
Proof.
  unfold run. cbn [fst].
  destruct (configured_accounts E) as [|a accs] eqn:Hacc.
  - destruct (main_aborts P E initial_world Hacc) as [e [w' [-> _]]]. reflexivity.
  - assert (Hne : configured_accounts E <> []) by (rewrite Hacc; discriminate).
    destruct (main_reports P E initial_world Hne) as [ts [st [w' [Hrun _]]]].
    rewrite Hrun, Hacc. cbn [fetches initial_world fst].
    destruct (successes P 0 (a :: accs) =? 0)%Z; reflexivity.
Qed.

(** C3: the process ends with status 0 or 1.  The status is not 0 exactly
    when loading fails (no configuration, or no well-formed line in it)
    or when accounts were loaded and none of their checks succeeded.  When
    loading fails, it throws before any delay or request of a check: the
    run holds console output and at most the notification request. *)
Theorem exit_status_decided :
  forall (P : Platform) (E : Env),
    let accounts := configured_accounts E in
    (fst (run P E) = 0%Z \/ fst (run P E) = 1%Z)
    /\ (fst (run P E) <> 0%Z
        <-> accounts = []
            \/ ((0 < List.length accounts)%nat /\ successes P 0 accounts = 0%Z))
    /\ (accounts = []
        <-> exists e, fst (validateAndLoadAccounts P E initial_world) = Throw e)
    /\ (accounts = [] -> Forall outside_checks (snd (run P E))).
Proof.
  intros P E accounts. rewrite (exit_status_run P E). fold accounts.
  split; [|split; [|split]].
  - destruct accounts; [now right|].
    destruct (successes P 0 _ =? 0)%Z; [now right | now left].
  - destruct accounts as [|a accs] eqn:Hacc.
    + split; [now left | discriminate].
    + destruct (Z.eqb_spec (successes P 0 (a :: accs)) 0) as [Hz | Hz].
      * split; [|discriminate]. intros _. right. split; [simpl; lia | exact Hz].
      * split; [congruence|]. intros [H | [_ H]]; [discriminate | contradiction].
  - destruct (validate_run P E initial_world) as [w' [_ [[Hne Hrun] | [Hnil [e Hrun]]]]].
    + fold accounts in Hne. rewrite Hrun. split; [contradiction|].
      intros [e He]. discriminate He.
    + rewrite Hrun. split; [|intros _; exact Hnil]. intros _. now exists e.
  - intros Hnil. unfold run. cbn [snd].
    destruct (main_aborts P E initial_world Hnil) as [e [w' [Hrun Ht]]].
    rewrite Hrun. cbn [snd]. apply outside_checks_timed. rewrite Ht.
    apply outside_checks_notification.
Qed.

Lemma exit_status_decided_witness :
  Forall outside_checks
    (snd (run (Scenario.host Scenario.never) (Scenario.env_with_telegram None))).
Proof.
  exact (proj2 (proj2 (proj2 (exit_status_decided (Scenario.host Scenario.never)
                                (Scenario.env_with_telegram None)))) eq_refl).
Defined.

(** *** The report *)

Lemma recorded_from (lines : list jsstring) :
  forall results : list jsstring,
    fold_left (fun rs line => rs ++ [line]) lines results = results ++ lines.
Proof.
  induction lines as [|l lines IH]; intros results; simpl.
  - now rewrite app_nil_r.
  - now rewrite IH, <- app_assoc.
Qed.

Lemma join_empty lines : join_strings [] lines = List.concat lines.
Proof.
  induction lines as [|l [|l' lines] IH].
  - reflexivity.
  - simpl. now rewrite app_nil_r.
  - change (join_strings [] (l :: l' :: lines))
      with (l ++ [] ++ join_strings [] (l' :: lines)).
    rewrite IH. reflexivity.
Qed.

(** The lines of complete accounts: one per account, in the order of the
    accounts, the [i]-th on the outcome of the [i]-th request. *)
Lemma report_lines_complete P accounts :
  Forall (fun a => complete a = true /\ clean_email a = email a
                   /\ clean_pat a = pat a) accounts ->
  forall n,
    report_lines P n accounts
    = map (fun ia => line_checked (email (snd ia)) (outcome_at P (fst ia) (snd ia)))
        (combine (seq n (List.length accounts)) accounts).
Proof.
  induction 1 as [|a accs [Hc [He _]] _ IH]; intros n; [reflexivity|].
  cbn [report_lines List.length seq combine map fst snd].
  now rewrite Hc, He, IH.
Qed.

(** C6: whatever lines were recorded, the report is one text: the title,
    a rule, the date, the summary with the total, the successes and their
    difference as failures, a rule, then the recorded lines in the order
    of their recording.  In a run the recorded lines are those of the
    configured accounts in the order of the configuration, each on the
    outcome of its own check, and the report is previewed on the console. *)
Theorem report_layout :
  (forall (currentTime : jsstring) (total successCount : Z) (lines : list jsstring),
     render currentTime total successCount (recorded lines)
     = js "🤖 *Koyeb 账户状态报告* 🤖" ++ nl
       ++ js "=====================" ++ nl
       ++ js "⏰ 日期: " ++ currentTime ++ nl
       ++ js "📊 总计: " ++ Number_toString total ++ js " 个账户" ++ nl
       ++ js "✅ 成功: " ++ Number_toString successCount
       ++ js " 个 | ❌ 失败: " ++ Number_toString (total - successCount)
       ++ js " 个" ++ nl
       ++ js "---------------------------" ++ nl
       ++ List.concat lines)
  /\ (forall (P : Platform) (E : Env),
        configured_accounts E <> [] ->
        let accounts := configured_accounts E in
        let lines :=
          map (fun ia => line_checked (email (snd ia))
                           (outcome_at P (fst ia) (snd ia)))
            (combine (seq 0 (List.length accounts)) accounts) in
        exists currentTime stamped,
          In (Console console_log
                (stamped ++ js " - INFO - " ++ js "📊 --- 报告预览 ---" ++ nl
                 ++ render currentTime (Z.of_nat (List.length accounts))
                      (successes P 0 accounts) (recorded lines)))
             (snd (run P E))).
Proof.
  split.
  - intros ts total sc lines. unfold render, summary, recorded.
    rewrite recorded_from, app_nil_l, join_empty.
    rewrite <- !app_assoc. reflexivity.
  - intros P E Hne accounts lines.
    destruct (main_reports P E initial_world Hne) as [ts [st [w' [Hrun [_ Hin]]]]].
    exists ts, st. unfold run. cbn [snd]. rewrite Hrun. cbn [snd].
    unfold recorded. rewrite recorded_from, app_nil_l. unfold lines, accounts.
    rewrite <- (report_lines_complete P _ (configured_complete E) 0).
    exact Hin.
Qed.

Lemma report_layout_witness :
  exists currentTime stamped,
    In (Console console_log
          (stamped ++ js " - INFO - " ++ js "📊 --- 报告预览 ---" ++ nl
           ++ render currentTime
                (Z.of_nat (List.length
                   (configured_accounts (Scenario.env_of (Some Scenario.two_accounts)))))
                (successes (Scenario.host Scenario.first_ok_then_forbidden) 0
                   (configured_accounts (Scenario.env_of (Some Scenario.two_accounts))))
                (recorded
                   (map (fun ia => line_checked (email (snd ia))
                                     (outcome_at
                                        (Scenario.host Scenario.first_ok_then_forbidden)
                                        (fst ia) (snd ia)))
                      (combine
                         (seq 0 (List.length
                            (configured_accounts
                               (Scenario.env_of (Some Scenario.two_accounts)))))
                         (configured_accounts
                            (Scenario.env_of (Some Scenario.two_accounts))))))))
       (snd (run (Scenario.host Scenario.first_ok_then_forbidden)
               (Scenario.env_of (Some Scenario.two_accounts)))).
Proof.
  exact (proj2 report_layout (Scenario.host Scenario.first_ok_then_forbidden)
           (Scenario.env_of (Some Scenario.two_accounts))
           ltac:(vm_compute; discriminate)).
Defined.

(** *** The notification and the exit status *)

Lemma koyeb_request_url pat : req_url (koyeb_request pat) = KOYEB_PROFILE_URL.
Proof. unfold koyeb_request. cbn [req_url]. reflexivity. Qed.

Lemma verify_with_network P net' email pat w :
  (forall n r, req_url r = KOYEB_PROFILE_URL -> net' n r = network P n r) ->
  verifyKoyebAccountStatus (with_network P net') email pat w
  = verifyKoyebAccountStatus P email pat w.
Proof.
  intros Hnet. unfold verifyKoyebAccountStatus.
  destruct (is_empty email || is_empty pat); [reflexivity|].
  rewrite !run_try, !run_bind. unfold fetchWithTimeout.
  change (network (with_network P net')) with net'.
  rewrite (Hnet (fetches w) (koyeb_request pat) (koyeb_request_url pat)).
  change (AbortError (with_network P net')) with (AbortError P).
  change (member (with_network P net')) with (member P).
  change (call_toLowerCase (with_network P net')) with (call_toLowerCase P).
  change (call_includes (with_network P net')) with (call_includes P).
  change (call_join (with_network P net')) with (call_join P).
  change (String_toLowerCase (with_network P net')) with (String_toLowerCase P).
  change (JSON_stringify (with_network P net')) with (JSON_stringify P).
  reflexivity.
Qed.

Lemma successes_with_network P net' accounts :
  (forall n r, req_url r = KOYEB_PROFILE_URL -> net' n r = network P n r) ->
  forall n, successes (with_network P net') n accounts = successes P n accounts.
Proof.
  intros Hnet. induction accounts as [|a accs IH]; intros n; [reflexivity|].
  cbn [successes]. unfold outcome_at.
  rewrite (verify_with_network P net' _ _ _ Hnet), !IH. reflexivity.
Qed.

(** C7: the notification never throws and never ends the process.  When
    the bot token or the chat id is unset it sends nothing, warns once and
    returns [null].  When the delivery fails (time-out, network failure or
    an answer outside 200..299) it logs the error and returns [null].  The
    exit status of a run does not depend on the notification: it is the
    same on any other notification credentials and for any other answers
    of the network to requests that are not checks. *)
Theorem notification_best_effort :
  forall (P : Platform) (E : Env) (message : jsstring) (w : world),
    let r := telegram_request P (env_text (TG_BOT_TOKEN E))
               (env_text (TG_CHAT_ID E)) message in
    (exists v w', sendTgMessage P E message w = (Normal v, w'))
    /\ (unset (TG_BOT_TOKEN E) || unset (TG_CHAT_ID E) = true ->
        exists w' line,
          sendTgMessage P E message w = (Normal JNull, w')
          /\ fetches w' = fetches w
          /\ trace w' = trace w ++ [Console console_warn line])
    /\ (unset (TG_BOT_TOKEN E) || unset (TG_CHAT_ID E) = false ->
        delivery_failed (network P (fetches w) r) = true ->
        exists w' logs,
          sendTgMessage P E message w = (Normal JNull, w')
          /\ trace w' = trace w ++ Fetch r REQUEST_TIMEOUT :: logs
          /\ logs <> [] /\ forallb is_error_log logs = true)
    /\ (forall net' E',
          KOYEB_LOGIN E' = KOYEB_LOGIN E ->
          (forall n q, req_url q = KOYEB_PROFILE_URL -> net' n q = network P n q) ->
          fst (run (with_network P net') E') = fst (run P E)).
Proof.
  intros P E message w r. split; [apply send_returns|]. split; [|split].
  - intros H. destruct (send_skips P E message w H) as [w' [Hrun [Hf [line Ht]]]].
    now exists w', line.
  - intros H Hfail.
    destruct (send_delivers P E message w H)
      as [v [w' [logs [Hrun [_ [Ht [Hl Hnull]]]]]]].
    destruct (Hnull Hfail) as [-> Hne]. now exists w', logs.
  - intros net' E' Hlogin Hnet. rewrite !exit_status_run.
    unfold configured_accounts. rewrite Hlogin.
    now rewrite (successes_with_network P net' _ Hnet).
Qed.

Lemma notification_best_effort_witness :
  (exists w' line,
     sendTgMessage (Scenario.host Scenario.never) (Scenario.env_of None)
       (js "report") initial_world = (Normal JNull, w')
     /\ fetches w' = fetches initial_world
     /\ trace w' = trace initial_world ++ [Console console_warn line])
  /\ (exists w' logs,
        sendTgMessage (Scenario.host Scenario.never)
          (Scenario.env_with_telegram None) (js "report") initial_world
        = (Normal JNull, w')
        /\ trace w'
           = trace initial_world
             ++ Fetch (telegram_request (Scenario.host Scenario.never)
                         (env_text (TG_BOT_TOKEN (Scenario.env_with_telegram None)))
                         (env_text (TG_CHAT_ID (Scenario.env_with_telegram None)))
                         (js "report")) REQUEST_TIMEOUT :: logs
        /\ logs <> [] /\ forallb is_error_log logs = true)
  /\ fst (run (with_network (Scenario.host Scenario.first_ok_then_forbidden)
                 Scenario.first_ok_then_forbidden)
            (Scenario.env_with_telegram (Some Scenario.two_accounts)))
     = fst (run (Scenario.host Scenario.first_ok_then_forbidden)
              (Scenario.env_of (Some Scenario.two_accounts))).
Proof.
  split; [|split].
  - exact (proj1 (proj2 (notification_best_effort (Scenario.host Scenario.never)
                           (Scenario.env_of None) (js "report") initial_world))
             eq_refl).
  - exact (proj1 (proj2 (proj2 (notification_best_effort
                                  (Scenario.host Scenario.never)
                                  (Scenario.env_with_telegram None) (js "report")
                                  initial_world)))
             ltac:(vm_compute; reflexivity) eq_refl).
  - exact (proj2 (proj2 (proj2 (notification_best_effort
                                  (Scenario.host Scenario.first_ok_then_forbidden)
                                  (Scenario.env_of (Some Scenario.two_accounts))
                                  (js "report") initial_world)))
             Scenario.first_ok_then_forbidden
             (Scenario.env_with_telegram (Some Scenario.two_accounts))
             eq_refl (fun _ _ _ => eq_refl)).
Defined.

(** *** The delay *)

(** C8: in the loop every account that reaches its check (non-empty
    identity and secret) is delayed by 10 000 ms immediately before the
    request of its check, the first account included; an account that does
    not reach its check causes neither.  In a run the delays and requests
    are exactly one pair for each configured account, in order, followed
    by the notification request if there is one. *)
Theorem delay_before_every_check :
  (forall (P : Platform) (totalAccounts : Z) (accounts : list Account)
          (index : Z) (results : list jsstring) (successCount : Z) (w : world),
     timed (trace (snd (verify_loop P (verifyKoyebAccountStatus P) totalAccounts
                          accounts index results successCount w)))
     = timed (trace w)
       ++ flat_map (fun a =>
                      if complete a
                      then [Sleep 10000;
                            Fetch (koyeb_request (clean_pat a)) REQUEST_TIMEOUT]
                      else []) accounts)
  /\ (forall (P : Platform) (E : Env),
        exists message,
          timed (snd (run P E))
          = flat_map (fun a => [Sleep 10000;
                                Fetch (koyeb_request (pat a)) REQUEST_TIMEOUT])
              (configured_accounts E)
            ++ notification P E message).
Proof.
  split.
  - intros P total accounts index results sc w.
    destruct (loop_run P total accounts index results sc w) as [w' [-> Ht]].
    exact Ht.
  - intros P E. rewrite <- checks_configured. unfold run. cbn [snd].
    destruct (configured_accounts E) as [|a accs] eqn:Hacc.
    + destruct (main_aborts P E initial_world Hacc) as [e [w' [-> Ht]]].
      exists (init_failure e). exact Ht.
    + assert (Hne : configured_accounts E <> []) by (rewrite Hacc; discriminate).
      destruct (main_reports P E initial_world Hne) as [ts [st [w' [-> [Ht _]]]]].
      eexists. cbn [snd]. rewrite Ht, Hacc. reflexivity.
Qed.

(* ================================================================== *)
(** * Further properties *)

(** ** verifyKoyebAccountStatus *)

(** Close a branch that ends in a failure outcome. *)
Ltac failure_branch :=
  repeat first
    [ rewrite run_try | rewrite run_bind | rewrite run_ret | rewrite run_throw
    | progress cbv iota beta
    | progress cbn [ToString call_join]
    | match goal with
      | |- context [if ?b then _ else _] => destruct b
      | |- context [match ToString ?v with _ => _ end] => destruct (ToString v)
      | |- context [match Array_join ?sep ?xs with _ => _ end] =>
        destruct (Array_join sep xs)
      end ];
  cbn [fst]; intros [= <-] Hs; discriminate Hs.

(** Read the members of a profile that is not null. *)
Ltac read_members P d Hd :=
  unfold await; rewrite run_bind, run_ret;
  rewrite (member_property P _ _ Hd); rewrite run_bind, run_ret;
  fold (userInfo_of d);
  rewrite !(member_property P _ _ (userInfo_not_nullish d));
  rewrite run_bind, run_ret, run_bind, run_ret, run_bind, run_ret;
  fold (returnedEmail_of d); fold (flags_of d); fold (emailValidated_of d).

Ltac read_profile P d Hjson Hd := rewrite Hjson; read_members P d Hd.

Lemma TypeError_not_abort P f : eqb (err_name (TypeError P f)) (js "AbortError") = false.
Proof. reflexivity. Qed.

Section Verify_more.

Variable P : Platform.

(** A check without identity or secret issues no request; any other check
    issues exactly one request, a GET of the profile with the secret as
    bearer token under the 30 000 ms timer, writes nothing to the console,
    and its outcome depends on the world only through the answer given to
    that request. *)
Theorem verify_single_request :
  forall (email pat : jsstring),
    (email = [] \/ pat = [] ->
     forall w, verifyKoyebAccountStatus P email pat w
               = (Normal {| success := false;
                            message := js "邮箱或个人访问令牌 (PAT) 为空" |}, w))
    /\ (email <> [] -> pat <> [] ->
        forall n, exists o, forall w,
          fetches w = n ->
          verifyKoyebAccountStatus P email pat w
          = (Normal o,
             {| ticks := ticks w; fetches := S n;
                trace := trace w
                         ++ [Fetch {| req_url := KOYEB_PROFILE_URL;
                                      req_method := js "GET";
                                      req_headers :=
                                        [(js "Content-Type", js "application/json");
                                         (js "Authorization", js "Bearer " ++ pat);
                                         (js "User-Agent",
                                          js "KoyebAccountStatusChecker/1.0")];
                                      req_body := None |} 30000] |})).
Proof.
  intros email pat. split.
  - intros H w. unfold verifyKoyebAccountStatus.
    assert (Hg : is_empty email || is_empty pat = true).
    { destruct H as [-> | ->]; [reflexivity | apply orb_true_r]. }
    now rewrite Hg.
  - intros He Hp n. destruct (verify_run P email pat n He Hp) as [o Ho].
    exists o. intros w Hw. rewrite (Ho w Hw). unfold fetched. now rewrite Hw.
Qed.

(** Success is reported only for a 2xx answer whose JSON body carries the
    requested identity (compared in lower case), a truthy
    [email_validated] and flags that include "ACTIVE". *)
Theorem verify_success_only_if :
  forall (email pat : jsstring) (w : world) (o : outcome),
    fst (verifyKoyebAccountStatus P email pat w) = Normal o ->
    success o = true ->
    exists response profileData returnedEmail,
      network P (fetches w) (koyeb_request pat) = Some (Fulfilled response)
      /\ ok response = true
      /\ body_json response = Fulfilled profileData
      /\ returnedEmail_of profileData = JStr returnedEmail
      /\ String_toLowerCase P returnedEmail = String_toLowerCase P email
      /\ truthy (emailValidated_of profileData) = true
      /\ ((exists flags, flags_of profileData = JArr flags
                         /\ Array_includes (js "ACTIVE") flags = true)
          \/ (exists text, flags_of profileData = JStr text
                           /\ includes (js "ACTIVE") text = true)).
Proof.
  intros email pat w o. unfold verifyKoyebAccountStatus, template_text.
  destruct (is_empty email || is_empty pat) eqn:Hg.
  { cbn [fst]. intros [= <-] Hs. discriminate Hs. }
  rewrite run_try, run_bind. unfold fetchWithTimeout at 1.
  destruct (network P (fetches w) (koyeb_request pat)) as [[response | e] |] eqn:Hnet;
    [|failure_branch|failure_branch].
  destruct ((status response =? 401) || (status response =? 403))%Z;
    [failure_branch|].
  destruct (ok response) eqn:Hok; cbn [negb].
  2:{ unfold await, member, text_after_json.
      destruct (body_json response) as [d | e]; [destruct d|];
      destruct (body_text response); failure_branch. }
  destruct (body_json response) as [d | e] eqn:Hjson;
    [|unfold await; failure_branch].
  destruct (nullish d) eqn:Hd.
  { unfold await. destruct d; try discriminate Hd; cbn [member]; failure_branch. }
  read_members P d Hd.
  destruct (returnedEmail_of d) as [| | b | r | re | xs | props] eqn:Hre;
    cbn [call_toLowerCase]; try failure_branch.
  rewrite run_bind, run_ret.
  destruct (eqb (String_toLowerCase P re) (String_toLowerCase P email)) eqn:Heq;
    cbn [negb]; [|failure_branch].
  apply eqb_eq in Heq.
  destruct (flags_of d) as [| | b | r | text | flags | props] eqn:Hfs;
    cbn [call_includes]; try failure_branch.
  - rewrite run_bind, run_ret. unfold decision.
    destruct (includes (js "ACTIVE") text) eqn:Hinc; cbn [andb negb];
      [|failure_branch].
    destruct (truthy (emailValidated_of d)) eqn:Hev; [|failure_branch].
    intros _ _. exists response, d, re. repeat split; auto.
    right. now exists text.
  - rewrite run_bind, run_ret. unfold decision.
    destruct (Array_includes (js "ACTIVE") flags) eqn:Hinc; cbn [andb negb];
      [|failure_branch].
    destruct (truthy (emailValidated_of d)) eqn:Hev; [|failure_branch].
    intros _ _. exists response, d, re. repeat split; auto.
    left. now exists flags.
Qed.

(** Flags sent as one string are searched for the substring "ACTIVE": a
    text that contains it counts as active, whatever else it says; a text
    that does not makes [flags.join] fail, which is reported as a network
    exception. *)
Theorem verify_flags_as_text :
  forall (email pat : jsstring) (w : world) (response : Response)
         (profileData : jsval) (returnedEmail text : jsstring),
    email <> [] -> pat <> [] ->
    network P (fetches w) (koyeb_request pat) = Some (Fulfilled response) ->
    ok response = true ->
    body_json response = Fulfilled profileData ->
    nullish profileData = false ->
    returnedEmail_of profileData = JStr returnedEmail ->
    String_toLowerCase P returnedEmail = String_toLowerCase P email ->
    flags_of profileData = JStr text ->
    fst (verifyKoyebAccountStatus P email pat w) =
      Normal
        (if includes (js "ACTIVE") text then
           if truthy (emailValidated_of profileData) then
             {| success := true; message := js "活跃且邮箱已验证" |}
           else {| success := false; message := js "原因: 邮箱未验证" |}
         else
           {| success := false;
              message := js "原因: 网络请求异常: "
                         ++ engine_message P (NotAFunction (js "flags.join")) |}).
Proof.
  intros email pat w response d re text Hemail Hpat Hnet Hok Hjson Hd Hre Heq Hfs.
  enter_verify Hemail Hpat Hnet.
  rewrite (ok_not_auth _ Hok), Hok. cbn [negb].
  read_profile P d Hjson Hd.
  rewrite Hre, Hfs. cbn [call_toLowerCase call_includes].
  rewrite run_bind, run_ret, Heq, eqb_refl. cbn [negb].
  rewrite run_bind, run_ret. unfold decision.
  destruct (includes (js "ACTIVE") text); cbn [andb negb].
  - destruct (truthy (emailValidated_of d)); reflexivity.
  - cbn [call_join]. rewrite run_bind, run_throw, TypeError_not_abort.
    reflexivity.
Qed.

(** A 2xx answer whose JSON is [null], or whose returned email is neither
    a string nor falsy, is not a mismatch: reading it fails inside the
    check and the failure is reported as a network exception carrying the
    engine's message. *)
Theorem verify_malformed_profile :
  forall (email pat : jsstring) (w : world) (response : Response),
    email <> [] -> pat <> [] ->
    network P (fetches w) (koyeb_request pat) = Some (Fulfilled response) ->
    ok response = true ->
    (body_json response = Fulfilled JNull ->
     fst (verifyKoyebAccountStatus P email pat w) =
       Normal {| success := false;
                 message := js "原因: 网络请求异常: "
                            ++ engine_message P (ReadOfNullish (js "user")) |})
    /\ (forall profileData,
          body_json response = Fulfilled profileData ->
          nullish profileData = false ->
          (forall s, returnedEmail_of profileData <> JStr s) ->
          fst (verifyKoyebAccountStatus P email pat w) =
            Normal {| success := false;
                      message := js "原因: 网络请求异常: "
                                 ++ engine_message P
                                      (NotAFunction (js "returnedEmail.toLowerCase")) |}).
Proof.
  intros email pat w response Hemail Hpat Hnet Hok. split.
  - intros Hjson. enter_verify Hemail Hpat Hnet.
    rewrite (ok_not_auth _ Hok), Hok. cbn [negb].
    rewrite Hjson. unfold await. rewrite run_bind, run_ret. cbn [member].
    rewrite run_bind, run_throw, TypeError_not_abort. reflexivity.
  - intros d Hjson Hd Hre. enter_verify Hemail Hpat Hnet.
    rewrite (ok_not_auth _ Hok), Hok. cbn [negb].
    read_profile P d Hjson Hd.
    destruct (returnedEmail_of d) as [| | b | r | re | xs | props] eqn:E;
      try (now contradiction (Hre re));
      cbn [call_toLowerCase]; rewrite run_bind, run_throw, TypeError_not_abort;
      reflexivity.
Qed.

End Verify_more.

(** ** validateAndLoadAccounts *)

Lemma split_no_sep sep s : Forall (fun l => ~ In sep l) (split sep s).
Proof.
  induction s as [|c t IH]; [repeat constructor; tauto|].
  rewrite split_cons. destruct (N.eqb_spec c sep) as [-> | Hne].
  - constructor; [tauto | exact IH].
  - pose proof (split_not_nil sep t) as Hnil.
    destruct (split sep t) as [|h r]; [congruence|].
    inversion IH; subst. constructor; [|assumption].
    simpl. intros [H | H]; [congruence | tauto].
Qed.

Lemma In_trim x s : In x (trim s) -> In x s.
Proof. unfold trim. intros H. now apply In_trimStart, In_trimEnd. Qed.

Lemma account_of_line_canonical l a :
  ~ In 10%N l -> account_of_line l = Some a -> canonical a.
Proof.
  unfold account_of_line. intros Hnl.
  destruct (cut 58%N l) as [[x y]|] eqn:Hcut; [|discriminate].
  apply cut_Some in Hcut as [-> Hx].
  destruct (is_empty (trim x)) eqn:Ex; [discriminate|].
  destruct (is_empty (trim y)) eqn:Ey; [discriminate|].
  intros [= <-]. unfold canonical. cbn [email pat].
  repeat split.
  - intros H. rewrite H in Ex. discriminate.
  - intros H. rewrite H in Ey. discriminate.
  - apply trim_idem.
  - apply trim_idem.
  - intros H. apply Hx, In_trim, H.
  - intros H. apply Hnl, in_or_app. left. apply In_trim, H.
  - intros H. apply Hnl, in_or_app. right. right. apply In_trim, H.
Qed.

Lemma accounts_of_input_canonical raw : Forall canonical (accounts_of_input raw).
Proof.
  unfold accounts_of_input.
  pose proof (split_no_sep 10%N raw) as Hl.
  induction Hl as [|l lines Hnl _ IH]; [constructor|].
  simpl. apply Forall_app. split; [|exact IH].
  destruct (account_of_line l) as [a|] eqn:Ha; [|constructor].
  constructor; [|constructor]. exact (account_of_line_canonical l a Hnl Ha).
Qed.

(** Whatever the configuration, the accounts that loading returns are at
    least one, and each has a non-empty identity and secret without
    surrounding white space, an identity without colon, and no line feed
    in either. *)
Theorem loaded_accounts_canonical :
  forall (P : Platform) (E : Env) (w : world) (accounts : list Account),
    fst (validateAndLoadAccounts P E w) = Normal accounts ->
    accounts <> [] /\ Forall canonical accounts.
Proof.
  intros P E w accounts.
  destruct (validate_run P E w) as [w' [_ [[Hne ->] | [_ [e ->]]]]];
    [|discriminate].
  cbn [fst]. intros [= <-]. split; [exact Hne|].
  unfold configured_accounts. destruct (KOYEB_LOGIN E) as [raw|]; [|constructor].
  apply accounts_of_input_canonical.
Qed.

Lemma cut_app sep a b : ~ In sep a -> cut sep (a ++ sep :: b) = Some (a, b).
Proof.
  induction a as [|c a IH]; simpl; intros H.
  - now rewrite N.eqb_refl.
  - destruct (N.eqb_spec c sep) as [-> | Hne]; [tauto|].
    rewrite IH by tauto. reflexivity.
Qed.

Lemma app_unit (x : N) (s t : jsstring) : s ++ [x] ++ t = s ++ x :: t.
Proof. reflexivity. Qed.

Lemma account_of_line_format a :
  canonical a -> account_of_line (email a ++ colon ++ pat a) = Some a.
Proof.
  intros (He & Hp & Hte & Htp & Hc & _ & _). unfold account_of_line, colon.
  rewrite app_unit, (cut_app 58%N (email a) (pat a) Hc), Hte, Htp.
  rewrite (is_empty_false _ He), (is_empty_false _ Hp). destruct a; reflexivity.
Qed.

Lemma split_line sep l : ~ In sep l -> split sep l = [l].
Proof.
  induction l as [|c l IH]; [reflexivity|]. simpl In. intros H.
  rewrite split_cons. destruct (N.eqb_spec c sep) as [-> | Hne]; [tauto|].
  rewrite IH by tauto. reflexivity.
Qed.

Lemma split_app_sep sep l rest :
  ~ In sep l -> split sep (l ++ sep :: rest) = l :: split sep rest.
Proof.
  induction l as [|c l IH]; simpl In; intros H.
  - simpl. now rewrite N.eqb_refl.
  - change ((c :: l) ++ sep :: rest) with (c :: (l ++ sep :: rest)).
    rewrite split_cons. destruct (N.eqb_spec c sep) as [-> | Hne]; [tauto|].
    rewrite IH by tauto. reflexivity.
Qed.

Lemma split_join_lines lines :
  lines <> [] -> Forall (fun l => ~ In 10%N l) lines ->
  split 10%N (join_strings nl lines) = lines.
Proof.
  intros Hne Hall. induction Hall as [|l lines Hl Hrest IH]; [congruence|].
  destruct lines as [|l' lines'].
  - simpl. now apply split_line.
  - change (join_strings nl (l :: l' :: lines'))
      with (l ++ nl ++ join_strings nl (l' :: lines')).
    unfold nl at 1. rewrite app_unit, (split_app_sep 10%N l _ Hl).
    rewrite IH by discriminate. reflexivity.
Qed.

Lemma canonical_line a : canonical a -> ~ In 10%N (email a ++ colon ++ pat a).
Proof.
  intros (_ & _ & _ & _ & _ & He & Hp) H.
  apply in_app_or in H as [H | H]; [tauto|].
  apply in_app_or in H as [H | H]; [|tauto].
  destruct H as [H | []]; discriminate H.
Qed.

Lemma accounts_of_lines accounts :
  Forall canonical accounts ->
  flat_map (fun line => option_list (account_of_line line))
    (map (fun a => email a ++ colon ++ pat a) accounts) = accounts.
Proof.
  induction 1 as [|a accs Ha _ IH]; [reflexivity|].
  cbn [map flat_map]. rewrite (account_of_line_format a Ha), IH. reflexivity.
Qed.

Lemma accounts_of_format accounts :
  accounts <> [] -> Forall canonical accounts ->
  accounts_of_input (format_accounts accounts) = accounts.
Proof.
  intros Hne Hall. unfold accounts_of_input, format_accounts.
  rewrite split_join_lines.
  - now apply accounts_of_lines.
  - destruct accounts; [congruence | discriminate].
  - apply Forall_map. revert Hall. apply Forall_impl. apply canonical_line.
Qed.

(** Loading inverts the documented format: accounts that are canonical,
    written one [email:PAT] per line, are loaded back unchanged and in
    order. *)
Theorem load_format_round_trip :
  forall (P : Platform) (E : Env) (w : world) (accounts : list Account),
    accounts <> [] -> Forall canonical accounts ->
    KOYEB_LOGIN E = Some (format_accounts accounts) ->
    fst (validateAndLoadAccounts P E w) = Normal accounts.
Proof.
  intros P E w accounts Hne Hall Hraw.
  destruct (load_accounts_of_input P E _ w Hraw) as [Hload _].
  rewrite (accounts_of_format accounts Hne Hall) in Hload. now apply Hload.
Qed.

Lemma trim_ws_app ws s :
  forallb is_whitespace ws = true -> trim (ws ++ s) = trim s.
Proof.
  induction ws as [|c ws IH]; [reflexivity|]. simpl forallb. intros H.
  apply andb_true_iff in H as [Hc Hws].
  change ((c :: ws) ++ s) with (c :: (ws ++ s)).
  rewrite (trim_cons_ws _ _ Hc). auto.
Qed.

Lemma whitespace_no_colon ws : forallb is_whitespace ws = true -> ~ In 58%N ws.
Proof.
  induction ws as [|c ws IH]; [tauto|]. simpl forallb. intros H.
  apply andb_true_iff in H as [Hc Hws]. simpl.
  intros [-> | Hin]; [discriminate Hc | now apply IH].
Qed.

(** White space around a line, around its identity and around its secret
    is not significant: the padded line loads exactly as the bare one. *)
Theorem load_ignores_padding :
  forall (P : Platform) (identity secret ws1 ws2 ws3 ws4 : jsstring)
         (accounts : list Account) (w : world),
    ~ In 58%N identity ->
    forallb is_whitespace ws1 = true -> forallb is_whitespace ws2 = true ->
    forallb is_whitespace ws3 = true -> forallb is_whitespace ws4 = true ->
    fst (load_lines P [(ws1 ++ identity ++ ws2) ++ colon ++ (ws3 ++ secret ++ ws4)]
           accounts w)
    = fst (load_lines P [identity ++ colon ++ secret] accounts w).
Proof.
  intros P a b ws1 ws2 ws3 ws4 accounts w Ha H1 H2 H3 H4.
  destruct (load_lines_run P [(ws1 ++ a ++ ws2) ++ colon ++ (ws3 ++ b ++ ws4)]
              accounts w) as [w1 [-> _]].
  destruct (load_lines_run P [a ++ colon ++ b] accounts w) as [w2 [-> _]].
  cbn [fst]. do 2 f_equal. rewrite !loaded_cons, !line_account_spec.
  do 2 f_equal. unfold account_of_line, colon. rewrite !app_unit.
  rewrite (cut_app 58%N a b Ha).
  rewrite (cut_app 58%N (ws1 ++ a ++ ws2) (ws3 ++ b ++ ws4)).
  - rewrite (trim_ws_app ws1 _ H1), (trim_app_ws a ws2 H2).
    rewrite (trim_ws_app ws3 _ H3), (trim_app_ws b ws4 H4). reflexivity.
  - intros H. apply in_app_or in H as [H | H];
      [now apply (whitespace_no_colon ws1 H1)|].
    apply in_app_or in H as [H | H]; [tauto|].
    now apply (whitespace_no_colon ws2 H2).
Qed.

(** The two ways loading fails: an unset or empty variable is reported on
    the console and thrown as a missing configuration; a variable that is
    set but holds no well-formed line is thrown as holding no valid
    account. *)
Theorem load_failure_reasons :
  forall (P : Platform) (E : Env) (w : world),
    (unset (KOYEB_LOGIN E) = true ->
     validateAndLoadAccounts P E w
     = (Throw (new_Error (js "必须配置 KOYEB_LOGIN 环境变量")),
        logged P console_error
          (js " - ERROR - " ++ js "❌ KOYEB_LOGIN 变量未配置，脚本无法继续执行") w))
    /\ (forall raw,
          KOYEB_LOGIN E = Some raw -> raw <> [] -> accounts_of_input raw = [] ->
          fst (validateAndLoadAccounts P E w)
          = Throw (new_Error (js "KOYEB_LOGIN 环境变量未包含任何有效账户信息"))).
Proof.
  intros P E w. split.
  - unfold validateAndLoadAccounts, unset.
    destruct (KOYEB_LOGIN E) as [[|c raw]|]; try discriminate;
      intros _; rewrite run_bind, logger_error_eq; reflexivity.
  - intros raw Hraw Hne Hnil. unfold validateAndLoadAccounts. rewrite Hraw.
    destruct raw as [|c raw]; [congruence|]. rewrite run_bind.
    destruct (load_lines_run P (split 10%N (trim (c :: raw))) [] w)
      as [w1 [-> _]].
    now rewrite app_nil_l, loaded_trim, Hnil.
Qed.

(** Every line given to the loading loop is accounted for: it either adds
    one account or writes one line to the console, and the loop does
    nothing else. *)
Theorem load_lines_accounted :
  forall (P : Platform) (lines : list jsstring) (accounts : list Account)
         (w : world),
    exists new logs w',
      load_lines P lines accounts w = (Normal (accounts ++ new), w')
      /\ fetches w' = fetches w
      /\ trace w' = trace w ++ logs
      /\ forallb is_console logs = true
      /\ (List.length new + List.length logs = List.length lines)%nat.
Proof.
  intros P lines. induction lines as [|rawLine rest IH]; intros accounts w.
  - exists [], [], w. rewrite !app_nil_r. repeat split; reflexivity.
  - cbn [load_lines].
    destruct (is_empty (trim rawLine) || negb (includes colon (trim rawLine))).
    + rewrite run_bind, logger_warn_eq.
      destruct (IH accounts
                  (logged P console_warn
                     (js " - WARN - " ++ js "⚠️ 跳过无效或空行: " ++ trim rawLine) w))
        as [new [logs [w' [-> [Hf [Ht [Hc Hlen]]]]]]].
      exists new. eexists (_ :: logs). exists w'.
      split; [reflexivity|]. split; [exact Hf|]. split.
      * rewrite Ht. cbn [logged trace]. rewrite <- app_assoc. reflexivity.
      * split; [exact Hc|]. simpl. lia.
    + destruct (negb (is_empty _) && negb (is_empty _)).
      * destruct (IH (accounts ++ [{| email := trim (substring (trim rawLine) 0
                         (Some (indexOf colon (trim rawLine))));
                       pat := trim (substring (trim rawLine)
                         (indexOf colon (trim rawLine) + 1) None) |}]) w)
          as [new [logs [w' [-> [Hf [Ht [Hc Hlen]]]]]]].
        eexists (_ :: new). exists logs, w'. rewrite <- app_assoc.
        split; [reflexivity|]. repeat split; auto. simpl. lia.
      * rewrite run_bind, logger_error_eq.
        destruct (IH accounts
                    (logged P console_error
                       (js " - ERROR - "
                        ++ js "⚠️ KOYEB_LOGIN 行格式错误，应为 email:PAT -> "
                        ++ trim rawLine) w))
          as [new [logs [w' [-> [Hf [Ht [Hc Hlen]]]]]]].
        exists new. eexists (_ :: logs). exists w'.
        split; [reflexivity|]. split; [exact Hf|]. split.
        -- rewrite Ht. cbn [logged trace]. rewrite <- app_assoc. reflexivity.
        -- split; [exact Hc|]. simpl. lia.
Qed.

(** ** sendTgMessage *)

(** A delivered notification: on a 2xx answer the parsed JSON is returned
    after exactly one request and nothing is logged; if the body of that
    answer does not parse, the failure is logged once at error level and
    [null] is returned. *)
Theorem send_delivered :
  forall (P : Platform) (E : Env) (message : jsstring) (w : world)
         (response : Response),
    let r := telegram_request P (env_text (TG_BOT_TOKEN E))
               (env_text (TG_CHAT_ID E)) message in
    unset (TG_BOT_TOKEN E) || unset (TG_CHAT_ID E) = false ->
    network P (fetches w) r = Some (Fulfilled response) ->
    ok response = true ->
    (forall v, body_json response = Fulfilled v ->
       sendTgMessage P E message w = (Normal v, fetched w r))
    /\ (forall e, body_json response = Rejected e ->
          exists line,
            sendTgMessage P E message w
            = (Normal JNull,
               {| ticks := S (ticks w); fetches := S (fetches w);
                  trace := trace w ++ [Fetch r REQUEST_TIMEOUT;
                                       Console console_error line] |})).
Proof.
  intros P E message w response r H Hnet Hok.
  unfold sendTgMessage. fold (env_text (TG_BOT_TOKEN E)).
  fold (env_text (TG_CHAT_ID E)). rewrite !unset_empty, H. fold r.
  rewrite run_try, run_bind. unfold fetchWithTimeout. rewrite Hnet, Hok.
  cbn [negb]. split.
  - intros v ->. reflexivity.
  - intros e ->. cbn [await]. rewrite run_throw.
    destruct (eqb (err_name e) (js "AbortError"));
      eexists; rewrite run_bind, logger_error_eq;
      unfold logged; cbn [ticks fetches trace]; rewrite <- app_assoc;
      reflexivity.
Qed.

(** ** main *)

(** The promise of [main] never rejects: the run either ends the process
    with status 1 or returns. *)
Theorem main_settles :
  forall (P : Platform) (E : Env) (w : world),
    exists w', main P E w = (Exit 1, w') \/ main P E w = (Normal tt, w').
Proof.
  intros P E w. destruct (configured_accounts E) as [|a accs] eqn:Hacc.
  - destruct (main_aborts P E w Hacc) as [e [w' [Hrun _]]]. exists w'. now left.
  - assert (Hne : configured_accounts E <> []) by (rewrite Hacc; discriminate).
    destruct (main_reports P E w Hne) as [ts [st [w' [Hrun _]]]].
    exists w'. rewrite Hrun.
    destruct (successes P (fetches w) (configured_accounts E) =? 0)%Z;
      [now left | now right].
Qed.

Section Loop_counts.

Variable P : Platform.
Variable verify : jsstring -> jsstring -> M outcome.
Hypothesis verify_never_exits : never_exits verify.

Lemma loop_counts_from totalAccounts accounts :
  forall index results successCount w,
  exists lines successCount' w',
    verify_loop P verify totalAccounts accounts index results successCount w
    = (Normal (results ++ lines, successCount'), w')
    /\ List.length lines = List.length accounts
    /\ (successCount <= successCount'
        <= successCount + Z.of_nat (List.length accounts))%Z.
Proof.
  induction accounts as [|a rest IH]; intros index results sc w.
  - exists [], sc, w. rewrite app_nil_r. simpl. repeat split; lia.
  - destruct (complete a) eqn:Hc.
    + rewrite (loop_step_complete _ _ _ _ _ _ _ _ _ Hc).
      pose proof (verify_never_exits (clean_email a) (clean_pat a)
                    (before_check P totalAccounts index a w)) as Hx.
      destruct (verify (clean_email a) (clean_pat a)
                  (before_check P totalAccounts index a w)) as [[o | e | code] w1].
      * destruct (IH (index + 1)%Z (results ++ [line_checked (clean_email a) o])
                    (if success o then sc + 1 else sc)%Z w1)
          as [lines [sc' [w' [Hrun [Hlen Hb]]]]].
        exists (line_checked (clean_email a) o :: lines), sc', w'.
        rewrite Hrun, <- app_assoc. split; [reflexivity|].
        split; [simpl; now rewrite Hlen|].
        change (List.length (a :: rest)) with (S (List.length rest)).
        destruct (success o); lia.
      * destruct (IH (index + 1)%Z (results ++ [line_exception (clean_email a) e])
                    sc (after_exception P a e w1))
          as [lines [sc' [w' [Hrun [Hlen Hb]]]]].
        exists (line_exception (clean_email a) e :: lines), sc', w'.
        rewrite Hrun, <- app_assoc. split; [reflexivity|].
        split; [simpl; now rewrite Hlen|].
        change (List.length (a :: rest)) with (S (List.length rest)). lia.
      * now contradiction (Hx code).
    + rewrite (loop_step_incomplete _ _ _ _ _ _ _ _ _ Hc).
      destruct (IH (index + 1)%Z (results ++ [line_incomplete]) sc
                  (logged P console_warn
                     (js " - WARN - " ++ js "⚠️ 第 " ++ Number_toString (index + 1)
                      ++ js "/" ++ Number_toString totalAccounts
                      ++ js " 个账户信息不完整，已跳过") w))
        as [lines [sc' [w' [Hrun [Hlen Hb]]]]].
      exists (line_incomplete :: lines), sc', w'.
      rewrite Hrun, <- app_assoc. split; [reflexivity|].
      split; [simpl; now rewrite Hlen|].
      change (List.length (a :: rest)) with (S (List.length rest)). lia.
Qed.

End Loop_counts.

(** Whatever the check does short of ending the process, the loop records
    exactly one line for each account and its count of successes grows by
    at most one per account: started from zero as in [main], the count
    lies between 0 and the number of accounts, so the failures of the
    summary are never negative. *)
Theorem loop_counts :
  forall (P : Platform) (verify : jsstring -> jsstring -> M outcome)
         (accounts : list Account) (w : world),
    never_exits verify ->
    exists lines successCount w',
      verify_loop P verify (Z.of_nat (List.length accounts)) accounts 0 [] 0 w
      = (Normal (lines, successCount), w')
      /\ List.length lines = List.length accounts
      /\ (0 <= successCount <= Z.of_nat (List.length accounts))%Z
      /\ (0 <= Z.of_nat (List.length accounts) - successCount)%Z.
Proof.
  intros P verify accounts w Hx.
  destruct (loop_counts_from P verify Hx (Z.of_nat (List.length accounts))
              accounts 0%Z [] 0%Z w)
    as [lines [sc [w' [Hrun [Hlen Hb]]]]].
  exists lines, sc, w'. rewrite Hrun, app_nil_l. repeat split; auto; lia.
Qed.

(** With notification credentials a run issues exactly one notification
    request, after the delays and requests of all checks, and its text is
    the report previewed on the console; when loading fails the single
    request of the run is the notification of the load error. *)
Theorem report_is_notified :
  forall (P : Platform) (E : Env),
    unset (TG_BOT_TOKEN E) || unset (TG_CHAT_ID E) = false ->
    (configured_accounts E <> [] ->
     exists report stamped,
       timed (snd (run P E))
       = checks (configured_accounts E)
         ++ [Fetch (telegram_request P (env_text (TG_BOT_TOKEN E))
                      (env_text (TG_CHAT_ID E)) report) REQUEST_TIMEOUT]
       /\ In (Console console_log
                (stamped ++ js " - INFO - " ++ js "📊 --- 报告预览 ---" ++ nl
                 ++ report)) (snd (run P E)))
    /\ (configured_accounts E = [] ->
        exists e,
          fst (validateAndLoadAccounts P E initial_world) = Throw e
          /\ timed (snd (run P E))
             = [Fetch (telegram_request P (env_text (TG_BOT_TOKEN E))
                         (env_text (TG_CHAT_ID E))
                         (js "❌ 程序初始化失败: " ++ err_message e))
                  REQUEST_TIMEOUT]).
Proof.
  intros P E Htg. split.
  - intros Hne.
    destruct (main_reports P E initial_world Hne) as [ts [st [w' [Hrun [Ht Hin]]]]].
    eexists. exists st. unfold run. cbn [snd]. rewrite Hrun. cbn [snd].
    split; [|exact Hin]. rewrite Ht. unfold notification. rewrite Htg.
    reflexivity.
  - intros Hnil. unfold run, main, main_with. cbn [snd].
    rewrite run_try, run_bind.
    destruct (validate_run P E initial_world) as [w1 [Hq [[Hne _] | [_ [e He]]]]];
      [contradiction|].
    exists e. rewrite He. split; [reflexivity|]. cbv zeta.
    rewrite run_bind, logger_error_eq, run_bind.
    destruct (send_run P E (js "❌ 程序初始化失败: " ++ err_message e)
                (logged P console_error
                   (js " - ERROR - " ++ js "❌ 程序初始化失败: " ++ err_message e) w1))
      as [v [w2 [-> [Ht _]]]].
    unfold process_exit. cbv iota beta. cbn [snd].
    rewrite Ht, timed_logged, (timed_quiet _ _ Hq).
    unfold notification. rewrite Htg. reflexivity.
Qed.

(** ** getBeijingTime *)

Lemma replace_all_no_source x y s : x <> y -> ~ In x (replace_all x y s).
Proof.
  intros Hxy. unfold replace_all. induction s as [|c s IH]; simpl; [tauto|].
  intros [H | H]; [|tauto].
  destruct (N.eqb_spec c x) as [-> | Hne]; congruence.
Qed.

(** The time stamp is the clock's text with every slash turned into a
    dash and every other code unit left in place: it reads the clock once,
    holds no slash and keeps the length. *)
Theorem beijing_time_dashes :
  forall (P : Platform) (w : world),
    exists t,
      getBeijingTime P w
      = (Normal t, {| ticks := S (ticks w); fetches := fetches w;
                      trace := trace w |})
      /\ ~ In 47%N t
      /\ List.length t = List.length (clock P (ticks w))
      /\ (forall i,
            nth i t 0%N
            = if (nth i (clock P (ticks w)) 0 =? 47)%N then 45%N
              else nth i (clock P (ticks w)) 0%N).
Proof.
  intros P w. eexists. split; [reflexivity|]. split; [|split].
  - apply replace_all_no_source. discriminate.
  - unfold replace_all. apply length_map.
  - intros i. unfold replace_all.
    exact (map_nth (fun c => if (c =? 47)%N then 45%N else c)
             (clock P (ticks w)) 0%N i).
Qed.

(** ** The further properties on concrete runs *)

Lemma verify_single_request_witness :
  exists o, forall w,
    fetches w = 0%nat ->
    verifyKoyebAccountStatus (Scenario.host Scenario.never)
      (js "a@x.com") (js "tok1") w
    = (Normal o,
       {| ticks := ticks w; fetches := 1;
          trace := trace w
                   ++ [Fetch {| req_url := KOYEB_PROFILE_URL;
                                req_method := js "GET";
                                req_headers :=
                                  [(js "Content-Type", js "application/json");
                                   (js "Authorization", js "Bearer " ++ js "tok1");
                                   (js "User-Agent",
                                    js "KoyebAccountStatusChecker/1.0")];
                                req_body := None |} 30000] |}).
Proof.
  exact (proj2 (verify_single_request (Scenario.host Scenario.never)
                  (js "a@x.com") (js "tok1"))
           ltac:(vm_compute; discriminate) ltac:(vm_compute; discriminate) 0%nat).
Defined.

Lemma verify_success_only_if_witness :
  exists response profileData returnedEmail,
    network (Scenario.host (Scenario.always
               (Scenario.ok_response Scenario.active_profile)))
      (fetches initial_world) (koyeb_request (js "tok1"))
    = Some (Fulfilled response)
    /\ ok response = true
    /\ body_json response = Fulfilled profileData
    /\ returnedEmail_of profileData = JStr returnedEmail
    /\ String_toLowerCase
         (Scenario.host (Scenario.always
            (Scenario.ok_response Scenario.active_profile))) returnedEmail
       = String_toLowerCase
           (Scenario.host (Scenario.always
              (Scenario.ok_response Scenario.active_profile))) (js "a@x.com")
    /\ truthy (emailValidated_of profileData) = true
    /\ ((exists flags, flags_of profileData = JArr flags
                       /\ Array_includes (js "ACTIVE") flags = true)
        \/ (exists text, flags_of profileData = JStr text
                         /\ includes (js "ACTIVE") text = true)).
Proof.
  exact (verify_success_only_if
           (Scenario.host (Scenario.always
              (Scenario.ok_response Scenario.active_profile)))
           (js "a@x.com") (js "tok1") initial_world
           {| success := true; message := js "活跃且邮箱已验证" |}
           ltac:(vm_compute; reflexivity) eq_refl).
Defined.

Lemma verify_flags_as_text_witness :
  fst (verifyKoyebAccountStatus
         (Scenario.host (Scenario.always
            (Scenario.ok_response Cases.text_flags_profile)))
         (js "a@x.com") (js "tok1") initial_world)
  = Normal {| success := true; message := js "活跃且邮箱已验证" |}.
Proof.
  refine (eq_trans
            (verify_flags_as_text
               (Scenario.host (Scenario.always
                  (Scenario.ok_response Cases.text_flags_profile)))
               (js "a@x.com") (js "tok1") initial_world
               (Scenario.ok_response Cases.text_flags_profile)
               Cases.text_flags_profile (js "a@x.com") (js "INACTIVE")
               ltac:(vm_compute; discriminate) ltac:(vm_compute; discriminate)
               eq_refl eq_refl eq_refl eq_refl
               ltac:(vm_compute; reflexivity) eq_refl
               ltac:(vm_compute; reflexivity)) _).
  vm_compute. reflexivity.
Defined.

Lemma verify_malformed_profile_witness :
  fst (verifyKoyebAccountStatus (Scenario.host (Scenario.always Cases.null_body))
         (js "a@x.com") (js "tok1") initial_world)
  = Normal {| success := false;
              message := js "原因: 网络请求异常: "
                         ++ engine_message
                              (Scenario.host (Scenario.always Cases.null_body))
                              (ReadOfNullish (js "user")) |}.
Proof.
  exact (proj1 (verify_malformed_profile
                  (Scenario.host (Scenario.always Cases.null_body))
                  (js "a@x.com") (js "tok1") initial_world Cases.null_body
                  ltac:(vm_compute; discriminate) ltac:(vm_compute; discriminate)
                  eq_refl eq_refl) eq_refl).
Defined.

Lemma loaded_accounts_canonical_witness :
  [Scenario.alice; Scenario.bob] <> []
  /\ Forall canonical [Scenario.alice; Scenario.bob].
Proof.
  exact (loaded_accounts_canonical (Scenario.host Scenario.never)
           (Scenario.env_of (Some Scenario.two_accounts)) initial_world
           [Scenario.alice; Scenario.bob] ltac:(vm_compute; reflexivity)).
Defined.

Lemma canonical_alice_bob : Forall canonical [Scenario.alice; Scenario.bob].
Proof.
  repeat constructor; try (vm_compute; discriminate);
    vm_compute; intuition discriminate.
Qed.

Lemma load_format_round_trip_witness :
  fst (validateAndLoadAccounts (Scenario.host Scenario.never)
         (Scenario.env_of (Some (format_accounts [Scenario.alice; Scenario.bob])))
         initial_world)
  = Normal [Scenario.alice; Scenario.bob].
Proof.
  exact (load_format_round_trip (Scenario.host Scenario.never)
           (Scenario.env_of (Some (format_accounts [Scenario.alice; Scenario.bob])))
           initial_world [Scenario.alice; Scenario.bob]
           ltac:(discriminate) canonical_alice_bob eq_refl).
Defined.

Lemma load_ignores_padding_witness :
  fst (load_lines (Scenario.host Scenario.never)
         [(js "  " ++ js "a@x.com" ++ js " ") ++ colon
          ++ ([9%N] ++ js "tok1" ++ [13%N])] [] initial_world)
  = fst (load_lines (Scenario.host Scenario.never)
           [js "a@x.com" ++ colon ++ js "tok1"] [] initial_world).
Proof.
  exact (load_ignores_padding (Scenario.host Scenario.never)
           (js "a@x.com") (js "tok1") (js "  ") (js " ") [9%N] [13%N] []
           initial_world
           ltac:(vm_compute; intuition discriminate)
           ltac:(vm_compute; reflexivity) ltac:(vm_compute; reflexivity)
           ltac:(vm_compute; reflexivity) ltac:(vm_compute; reflexivity)).
Defined.

Lemma load_failure_reasons_witness :
  validateAndLoadAccounts (Scenario.host Scenario.never) (Scenario.env_of None)
    initial_world
  = (Throw (new_Error (js "必须配置 KOYEB_LOGIN 环境变量")),
     logged (Scenario.host Scenario.never) console_error
       (js " - ERROR - " ++ js "❌ KOYEB_LOGIN 变量未配置，脚本无法继续执行")
       initial_world)
  /\ fst (validateAndLoadAccounts (Scenario.host Scenario.never)
            (Scenario.env_of (Some (js "no colon here"))) initial_world)
     = Throw (new_Error (js "KOYEB_LOGIN 环境变量未包含任何有效账户信息")).
Proof.
  split.
  - exact (proj1 (load_failure_reasons (Scenario.host Scenario.never)
                    (Scenario.env_of None) initial_world) eq_refl).
  - exact (proj2 (load_failure_reasons (Scenario.host Scenario.never)
                    (Scenario.env_of (Some (js "no colon here"))) initial_world)
             (js "no colon here") eq_refl
             ltac:(vm_compute; discriminate) ltac:(vm_compute; reflexivity)).
Defined.

Lemma send_delivered_witness :
  sendTgMessage (Scenario.host (Scenario.always Cases.delivered))
    (Scenario.env_with_telegram None) (js "report") initial_world
  = (Normal (JObj [(js "ok", JBool true)]),
     fetched initial_world
       (telegram_request (Scenario.host (Scenario.always Cases.delivered))
          (env_text (TG_BOT_TOKEN (Scenario.env_with_telegram None)))
          (env_text (TG_CHAT_ID (Scenario.env_with_telegram None)))
          (js "report"))).
Proof.
  exact (proj1 (send_delivered (Scenario.host (Scenario.always Cases.delivered))
                  (Scenario.env_with_telegram None) (js "report") initial_world
                  Cases.delivered ltac:(vm_compute; reflexivity) eq_refl eq_refl)
           (JObj [(js "ok", JBool true)]) eq_refl).
Defined.

Lemma loop_counts_witness :
  exists lines successCount w',
    verify_loop (Scenario.host Scenario.never) Scenario.failing_check
      (Z.of_nat (List.length [Scenario.alice; Scenario.bob]))
      [Scenario.alice; Scenario.bob] 0 [] 0 initial_world
    = (Normal (lines, successCount), w')
    /\ List.length lines = List.length [Scenario.alice; Scenario.bob]
    /\ (0 <= successCount
        <= Z.of_nat (List.length [Scenario.alice; Scenario.bob]))%Z
    /\ (0 <= Z.of_nat (List.length [Scenario.alice; Scenario.bob])
             - successCount)%Z.
Proof.
  exact (loop_counts (Scenario.host Scenario.never) Scenario.failing_check
           [Scenario.alice; Scenario.bob] initial_world
           ltac:(intros ? ? ? ?; discriminate)).
Defined.

Lemma report_is_notified_witness :
  exists report stamped,
    timed (snd (run (Scenario.host Scenario.first_ok_then_forbidden)
                  (Scenario.env_with_telegram (Some Scenario.two_accounts))))
    = checks (configured_accounts
                (Scenario.env_with_telegram (Some Scenario.two_accounts)))
      ++ [Fetch (telegram_request (Scenario.host Scenario.first_ok_then_forbidden)
                   (env_text (TG_BOT_TOKEN
                      (Scenario.env_with_telegram (Some Scenario.two_accounts))))
                   (env_text (TG_CHAT_ID
                      (Scenario.env_with_telegram (Some Scenario.two_accounts))))
                   report) REQUEST_TIMEOUT]
    /\ In (Console console_log
             (stamped ++ js " - INFO - " ++ js "📊 --- 报告预览 ---" ++ nl
              ++ report))
          (snd (run (Scenario.host Scenario.first_ok_then_forbidden)
                  (Scenario.env_with_telegram (Some Scenario.two_accounts)))).
Proof.
  exact (proj1 (report_is_notified (Scenario.host Scenario.first_ok_then_forbidden)
                  (Scenario.env_with_telegram (Some Scenario.two_accounts))
                  ltac:(vm_compute; reflexivity))
           ltac:(vm_compute; discriminate)).
Defined.
